(** * ETL/raw_to_tfrecord.py: zip archive of images and labels to TFRecord

    A shallow embedding of the Glue job [ETL/raw_to_tfrecord.py] and the
    properties of its label parser, record encoder and archive pipeline.

    Conventions of the embedding:
    - a Python [bytes] value is a [list byte];
    - a Python [str] is the list of its Unicode code points ([list N]);
    - a Python [float] is an IEEE binary64 number, Rocq's primitive [float],
      whose [+] rounds to nearest-even exactly as CPython's does;
    - a Python [int] is a [Z];
    - a [dict] is a [gmap];
    - a call that can raise returns [exn + A]; code that also acts on the
      outside world (the local file, S3, the log) runs in the monad [M];
    - what the third-party libraries compute (PIL, TensorFlow, boto3,
      awsglue) and the two numeral readers [int()] and [float()] are the
      fields of the class [Runtime]: the script is verified against every
      runtime. A runtime is what one process gets from its libraries on
      its machine: two runs of the script are two runtimes. *)

From Stdlib Require Import ZArith NArith List Strings.Byte Strings.Ascii Strings.String.
From Corelib Require Import Floats.PrimFloat Floats.SpecFloat Floats.FloatOps.
From stdpp Require Import gmap list.

Local Open Scope N_scope.

(** ** Text and bytes *)

Abbreviation char := N (only parsing).
Abbreviation str := (list N) (only parsing).
Abbreviation bytes := (list byte) (only parsing).

(** An ASCII literal of the source, as a [str]. *)
Definition u (s : string) : str := N_of_ascii <$> list_ascii_of_string s.

(** An ASCII literal as [bytes]. *)
Definition b (s : string) : bytes := list_byte_of_string s.

(** Exceptions, by the class CPython raises. [LibraryError] stands for
    whatever a third-party call raises; all of them derive from
    [Exception]. *)
Inductive exn : Type :=
| UnicodeDecodeError
| ValueError
| KeyError
| FileNotFoundError
| LibraryError (what : string).

(** What leaves a call otherwise than by its return: an [Exception], which
    an [except Exception] catches, or [SystemExit], which it does not and
    which ends the process with the given status. *)
Inductive escape : Type :=
| Exception (e : exn)
| SystemExit (code : Z).

(** [s.endswith(suffix)] *)
Definition endswith (s suffix : str) : bool := bool_decide (suffix `suffix_of` s).

(** [s.endswith((s1, s2, ...))]: a tuple of suffixes. *)
Definition endswith_any (s : str) (suffixes : list str) : bool :=
  existsb (endswith s) suffixes.

(** [s.split(sep)] for a one-character separator: never empty. *)
Fixpoint split_sep (sep : char) (s : str) : list str :=
  match s with
  | [] => [[]]
  | c :: s' =>
      if c =? sep then [] :: split_sep sep s'
      else match split_sep sep s' with
           | [] => [[c]]
           | seg :: segs => (c :: seg) :: segs
           end
  end.

(** [l[-1]] on a list known to be non-empty ([d] is never reached then). *)
Definition last_item {A} (l : list A) (d : A) : A := List.last l d.

(** [str.isspace] for one character: CPython's [_PyUnicode_IsWhitespace]. *)
Definition isspace (c : char) : bool :=
  ((0x09 <=? c) && (c <=? 0x0D)) || ((0x1C <=? c) && (c <=? 0x20))
  || (c =? 0x85) || (c =? 0xA0) || (c =? 0x1680)
  || ((0x2000 <=? c) && (c <=? 0x200A))
  || (c =? 0x2028) || (c =? 0x2029) || (c =? 0x202F) || (c =? 0x205F)
  || (c =? 0x3000).

(** [s.lstrip()], [s.rstrip()], [s.strip()] *)
Fixpoint lstrip (s : str) : str :=
  match s with
  | c :: s' => if isspace c then lstrip s' else s
  | [] => []
  end.
Definition rstrip (s : str) : str := rev (lstrip (rev s)).
Definition strip (s : str) : str := rstrip (lstrip s).

(** [s.split()]: the maximal runs of non-whitespace characters. [cur] is
    the run being read. *)
Fixpoint split_ws_from (cur : str) (s : str) : list str :=
  match s with
  | [] => match cur with [] => [] | _ => [cur] end
  | c :: s' =>
      if isspace c
      then match cur with
           | [] => split_ws_from [] s'
           | _ => cur :: split_ws_from [] s'
           end
      else split_ws_from (cur ++ [c]) s'
  end.
Definition split_ws (s : str) : list str := split_ws_from [] s.

(** [raw.decode('utf-8')], strict: overlong forms, surrogates and code
    points above U+10FFFF raise. *)
Definition continuation (x : N) : bool := (0x80 <=? x) && (x <=? 0xBF).

Definition second_of3 (b0 b1 : N) : bool :=
  if b0 =? 0xE0 then (0xA0 <=? b1) && (b1 <=? 0xBF)
  else if b0 =? 0xED then (0x80 <=? b1) && (b1 <=? 0x9F)
  else continuation b1.

Definition second_of4 (b0 b1 : N) : bool :=
  if b0 =? 0xF0 then (0x90 <=? b1) && (b1 <=? 0xBF)
  else if b0 =? 0xF4 then (0x80 <=? b1) && (b1 <=? 0x8F)
  else continuation b1.

Fixpoint utf8_points (l : list N) : exn + str :=
  match l with
  | [] => inr []
  | b0 :: t =>
      if b0 <? 0x80 then
        match utf8_points t with inr s => inr (b0 :: s) | inl e => inl e end
      else if (0xC2 <=? b0) && (b0 <=? 0xDF) then
        match t with
        | b1 :: t1 =>
            if continuation b1 then
              match utf8_points t1 with
              | inr s => inr ((b0 - 0xC0) * 64 + (b1 - 0x80) :: s)
              | inl e => inl e
              end
            else inl UnicodeDecodeError
        | _ => inl UnicodeDecodeError
        end
      else if (0xE0 <=? b0) && (b0 <=? 0xEF) then
        match t with
        | b1 :: b2 :: t2 =>
            if second_of3 b0 b1 && continuation b2 then
              match utf8_points t2 with
              | inr s =>
                  inr ((b0 - 0xE0) * 4096 + (b1 - 0x80) * 64 + (b2 - 0x80) :: s)
              | inl e => inl e
              end
            else inl UnicodeDecodeError
        | _ => inl UnicodeDecodeError
        end
      else if (0xF0 <=? b0) && (b0 <=? 0xF4) then
        match t with
        | b1 :: b2 :: b3 :: t3 =>
            if second_of4 b0 b1 && continuation b2 && continuation b3 then
              match utf8_points t3 with
              | inr s =>
                  inr ((b0 - 0xF0) * 262144 + (b1 - 0x80) * 4096
                       + (b2 - 0x80) * 64 + (b3 - 0x80) :: s)
              | inl e => inl e
              end
            else inl UnicodeDecodeError
        | _ => inl UnicodeDecodeError
        end
      else inl UnicodeDecodeError
  end.

Definition decode_utf8 (raw : bytes) : exn + str := utf8_points (Byte.to_N <$> raw).

(** Iterating a binary file object yields its lines, each with its
    terminating [\n] (byte 10) when it has one. *)
Fixpoint readlines_from (cur : bytes) (raw : bytes) : list bytes :=
  match raw with
  | [] => match cur with [] => [] | _ => [cur] end
  | c :: raw' =>
      if Byte.to_N c =? 10 then (cur ++ [c]) :: readlines_from [] raw'
      else readlines_from (cur ++ [c]) raw'
  end.
Definition readlines (raw : bytes) : list bytes := readlines_from [] raw.

(** ** Data model *)

(** A bounding box: the dict with the keys ['xmin'], ['ymin'], ['xmax'],
    ['ymax'] and ['label'] built at lines 80-86. *)
Record bbox : Type := {
  xmin : float;
  ymin : float;
  xmax : float;
  ymax : float;
  label : Z
}.

(** [tf.train.Feature]: one of three typed lists. *)
Inductive Feature : Type :=
| BytesList (value : list bytes)
| FloatList (value : list float)
| Int64List (value : list Z).

(** [tf.train.Example]: its [features.feature] map, from name to feature. *)
Abbreviation Example := (gmap str Feature).

(** One entry of [zip_ref.infolist()], with the bytes that reading the
    member gives. *)
Record ZipInfo : Type := {
  filename : str;
  data : bytes
}.

(** What can be seen of a run from outside: the local file
    [/tmp/data.tfrecord] ([None] while it does not exist, else the records
    written to it), the calls made to [s3.upload_file] (file contents,
    bucket, key) and the records logged, all at level ERROR. *)
Inductive log_record : Type :=
| Error_parsing_arguments (e : exn)
| Location_txt_not_found
| Error_processing_images (e : exn)
| Missing_required_arguments.

Record world : Type := {
  tfrecord_file : option (list bytes);
  upload_calls : list (list bytes * str * str);
  log : list log_record
}.

(** How a call ends: it returns, or [sys.exit(code)] ends the process. *)
Inductive completion : Type :=
| Returned
| SysExit (code : Z).

(** The exit status of the process: 0 when the script runs to its end. *)
Definition exit_code (c : completion) : Z :=
  match c with
  | Returned => 0
  | SysExit code => code
  end.

(** ** The runtime: builtins and third-party libraries *)

Class Runtime : Type := {
  (** [int(s)] and [float(s)] on a token *)
  py_int : str -> exn + Z;
  py_float : str -> exn + float;
  (** PIL: [Image.open(file)] and [img.save(buf, format='JPEG')] *)
  Image : Type;
  Image_open : bytes -> exn + Image;
  Image_save_jpeg : Image -> exn + bytes;
  (** protobuf: the 32-bit value a [FloatList] keeps of a Python float, and
      [example.SerializeToString()] as this process computes it: the
      library does not fix the order in which the entries of the map
      field [feature] are laid out, and two processes may differ *)
  float32 : float -> float;
  SerializeToString : Example -> bytes;
  (** boto3: [s3.get_object(Bucket, Key)["Body"].read()] and
      [s3.upload_file(Filename, Bucket, Key)], given the file's records *)
  get_object : str -> str -> exn + bytes;
  upload_file : list bytes -> str -> str -> exn + unit;
  (** [zipfile.ZipFile(buffer, 'r')]: the listing, in archive order *)
  ZipFile : bytes -> exn + list ZipInfo;
  (** [tf.io.TFRecordWriter(tfrecord_filename)], given what the local file
      holds: the file may not be creatable *)
  TFRecordWriter : option (list bytes) -> exn + unit;
  (** [writer.write(record)], given the records already written *)
  writer_write : list bytes -> bytes -> exn + unit;
  (** awsglue: [getResolvedOptions(sys.argv, names)]; on [--help] the
      argument parser prints the usage and leaves with [SystemExit(0)] *)
  getResolvedOptions : list str -> list str -> escape + gmap str str
}.

(** ** Exceptions and effects *)

#[global] Instance exn_ret : MRet (sum exn) := fun A x => inr x.
#[global] Instance exn_bind : MBind (sum exn) :=
  fun A B f m => match m with inl e => inl e | inr x => f x end.

(** A computation on the world that returns or raises. The world a raise
    leaves behind is kept: an exception does not undo what was written. *)
Definition M (A : Type) : Type := world -> (exn + A) * world.

#[global] Instance M_ret : MRet M := fun A x w => (inr x, w).
#[global] Instance M_bind : MBind M :=
  fun A B f m w =>
    match m w with
    | (inl e, w') => (inl e, w')
    | (inr x, w') => f x w'
    end.

(** A call with no effect on the world. *)
Definition pure {A} (r : exn + A) : M A := fun w => (r, w).

(** The world after [logger.error(...)], after the local file is given the
    contents [records], and after a call to [s3.upload_file]. *)
Definition logged (r : log_record) (w : world) : world :=
  {| tfrecord_file := tfrecord_file w;
     upload_calls := upload_calls w;
     log := log w ++ [r] |}.
Definition with_file (records : list bytes) (w : world) : world :=
  {| tfrecord_file := Some records;
     upload_calls := upload_calls w;
     log := log w |}.
Definition with_upload (call : list bytes * str * str) (w : world) : world :=
  {| tfrecord_file := tfrecord_file w;
     upload_calls := upload_calls w ++ [call];
     log := log w |}.
Definition logger_error (r : log_record) : M unit := fun w => (inr tt, logged r w).

(** ** The script *)

Section Script.
Context `{RT : Runtime}.

(** *** Record encoder (lines 21-54) *)

Definition _bytes_feature (value : bytes) : Feature := BytesList [value].

Definition _float_feature (value : list float) : Feature :=
  FloatList (float32 <$> value).

(** An [Int64List] refuses a value outside the signed 64-bit range. *)
Definition int64 (n : Z) : bool :=
  ((- 2 ^ 63 <=? n) && (n <? 2 ^ 63))%Z.

Definition _int64_feature (value : list Z) : exn + Feature :=
  if forallb int64 value then inr (Int64List value) else inl ValueError.

(** Lines 35-53: the [tf.train.Example] built from an image and its boxes. *)
Definition image_to_example (img : Image) (bboxes : list bbox) : exn + Example :=
  img_byte_arr ← Image_save_jpeg img;
  let xmins := xmin <$> bboxes in
  let xmaxs := xmax <$> bboxes in
  let ymins := ymin <$> bboxes in
  let ymaxs := ymax <$> bboxes in
  let labels := label <$> bboxes in
  labels_feature ← _int64_feature labels;
  mret (list_to_map
          [ (u "image", _bytes_feature img_byte_arr);
            (u "xmins", _float_feature xmins);
            (u "xmaxs", _float_feature xmaxs);
            (u "ymins", _float_feature ymins);
            (u "ymaxs", _float_feature ymaxs);
            (u "labels", labels_feature) ]).

Definition image_to_tfrecord (img : Image) (bboxes : list bbox) : exn + bytes :=
  example ← image_to_example img bboxes;
  mret (SerializeToString example).

(** The example of an image with no box: its five lists are empty. *)
Definition unlabelled (img_byte_arr : bytes) : Example :=
  list_to_map
    [ (u "image", BytesList [img_byte_arr]);
      (u "xmins", FloatList []);
      (u "xmaxs", FloatList []);
      (u "ymins", FloatList []);
      (u "ymaxs", FloatList []);
      (u "labels", Int64List []) ].

(** *** Label parser (lines 74-86) *)

(** Line 75: [line.decode('utf-8').strip().split()] *)
Definition parts_of (line : bytes) : exn + list str :=
  text ← decode_utf8 line;
  mret (split_ws (strip text)).

(** Lines 75-86, one pass of the loop body on the dict [bboxes]. The values
    of the new dict are evaluated in the order they are written, so the
    first numeral that does not read decides which exception is raised. A
    raise drops [bboxes]: nothing reads it after the handler. *)
Definition label_line (line : bytes) (bboxes : gmap str (list bbox))
  : exn + gmap str (list bbox) :=
  parts ← parts_of line;
  match parts with
  | [image_name; class_id; x; y; width; height] =>
      let bboxes1 :=
        match bboxes !! image_name with
        | None => <[image_name := []]> bboxes
        | Some _ => bboxes
        end in
      x0 ← py_float x;
      y0 ← py_float y;
      x1 ← py_float x;
      w ← py_float width;
      y1 ← py_float y;
      h ← py_float height;
      l ← py_int class_id;
      let box := {| xmin := x0; ymin := y0;
                    xmax := (x1 + w)%float; ymax := (y1 + h)%float;
                    label := l |} in
      mret (alter (fun boxes => boxes ++ [box]) image_name bboxes1)
  | _ => mret bboxes
  end.

(** Line 74: [for line in label_file] *)
Fixpoint label_lines (lines : list bytes) (bboxes : gmap str (list bbox))
  : exn + gmap str (list bbox) :=
  match lines with
  | [] => mret bboxes
  | line :: rest =>
      bboxes' ← label_line line bboxes;
      label_lines rest bboxes'
  end.

(** *** Archive pipeline (lines 56-110) *)

(** [zip_ref.getinfo(name)]: the archive's name table keeps, of the members
    that share a name, the last one listed. *)
Definition getinfo (zip_ref : list ZipInfo) (name : str) : exn + ZipInfo :=
  match List.find (fun zi => bool_decide (filename zi = name)) (rev zip_ref) with
  | Some zi => inr zi
  | None => inl KeyError
  end.

(** [zip_ref.open(name)], read to the end. *)
Definition zip_open (zip_ref : list ZipInfo) (name : str) : exn + bytes :=
  zi ← getinfo zip_ref name;
  mret (data zi).

(** Lines 70-87: the first member whose name ends with [location.txt] is
    parsed and ends the scan. The result is [location_txt_found] with
    [bboxes]. *)
Fixpoint scan_location (zip_ref infolist : list ZipInfo)
    (bboxes : gmap str (list bbox)) : exn + (bool * gmap str (list bbox)) :=
  match infolist with
  | [] => mret (false, bboxes)
  | file_info :: rest =>
      if endswith (filename file_info) (u "location.txt") then
        label_file ← zip_open zip_ref (filename file_info);
        bboxes' ← label_lines (readlines label_file) bboxes;
        mret (true, bboxes')
      else scan_location zip_ref rest bboxes
  end.

(** Line 95 *)
Definition is_image (name : str) : bool :=
  endswith_any name [u ".png"; u ".jpg"; u ".jpeg"].

(** The members that the image pass takes, in listing order. *)
Definition images (infolist : list ZipInfo) : list ZipInfo :=
  List.filter (fun file_info => is_image (filename file_info)) infolist.

(** Line 100: [filename.split('/')[-1]] *)
Definition base_name (name : str) : str := last_item (split_sep 47 name) [].

(** Lines 96-103: the record of one image member. *)
Definition record_of (zip_ref : list ZipInfo) (bboxes : gmap str (list bbox))
    (file_info : ZipInfo) : exn + bytes :=
  file ← zip_open zip_ref (filename file_info);
  img ← Image_open file;
  let image_bboxes := default [] (bboxes !! base_name (filename file_info)) in
  image_to_tfrecord img image_bboxes.

(** Lines 96-103 up to line 53: the example of one image member, before
    it is serialized. *)
Definition example_of (zip_ref : list ZipInfo) (bboxes : gmap str (list bbox))
    (file_info : ZipInfo) : exn + Example :=
  file ← zip_open zip_ref (filename file_info);
  img ← Image_open file;
  let image_bboxes := default [] (bboxes !! base_name (filename file_info)) in
  image_to_example img image_bboxes.

(** Lines 97 and 35-37: the JPEG bytes PIL makes of the bytes of a member. *)
Definition jpeg_of (file : bytes) : exn + bytes :=
  img ← Image_open file;
  Image_save_jpeg img.

(** Line 93: [tf.io.TFRecordWriter(tfrecord_filename)] creates the file
    empty, or empties the one that is there; when it cannot, it raises
    and the file is as it was. *)
Definition writer_open : M unit :=
  fun w =>
    match TFRecordWriter (tfrecord_file w) with
    | inl e => (inl e, w)
    | inr _ => (inr tt, with_file [] w)
    end.

(** Line 104: [writer.write(tfrecord)] *)
Definition write (record : bytes) : M unit :=
  fun w =>
    let written := default [] (tfrecord_file w) in
    match writer_write written record with
    | inl e => (inl e, w)
    | inr _ => (inr tt, with_file (written ++ [record]) w)
    end.

(** The writer takes [records] one after the other, after [written]. *)
Fixpoint accepted (written records : list bytes) : Prop :=
  match records with
  | [] => True
  | record :: rest =>
      writer_write written record = inr tt /\ accepted (written ++ [record]) rest
  end.

(** Lines 94-104 *)
Fixpoint write_images (zip_ref infolist : list ZipInfo)
    (bboxes : gmap str (list bbox)) : M unit :=
  match infolist with
  | [] => mret tt
  | file_info :: rest =>
      (if is_image (filename file_info) then
         tfrecord ← pure (record_of zip_ref bboxes file_info);
         write tfrecord
       else mret tt);;
      write_images zip_ref rest bboxes
  end.

(** Line 107: [s3.upload_file(tfrecord_filename, bucket, key)] sends what
    the local file holds. *)
Definition upload (bucket key : str) : M unit :=
  fun w =>
    match tfrecord_file w with
    | None => (inl FileNotFoundError, w)
    | Some body =>
        (match upload_file body bucket key with
         | inl e => inl e
         | inr _ => inr tt
         end, with_upload (body, bucket, key) w)
    end.

(** Lines 58-107, the body of the [try]. The [return] of line 91 leaves
    the function from inside the [if]; what follows the [if] is its
    [else]. *)
Definition try_body (source_bucket zip_key target_bucket output_prefix : str)
  : M unit :=
  buffer ← pure (get_object source_bucket zip_key);
  zip_ref ← pure (ZipFile buffer);
  found ← pure (scan_location zip_ref zip_ref ∅);
  let '(location_txt_found, bboxes) := found in
  if negb location_txt_found then
    logger_error Location_txt_not_found
  else
    writer_open;;
    write_images zip_ref zip_ref bboxes;;
    upload target_bucket (output_prefix ++ u "/data.tfrecord").

(** Lines 56-110 *)
Definition process_images_to_tfrecord
    (source_bucket zip_key target_bucket output_prefix : str) (w : world)
  : completion * world :=
  match try_body source_bucket zip_key target_bucket output_prefix w with
  | (inr _, w') => (Returned, w')
  | (inl e, w') => (SysExit 2, logged (Error_processing_images e) w')
  end.

(** Lines 112-122 *)
Definition main (args : gmap str str) (w : world) : completion * world :=
  match args !! u "source_bucket", args !! u "zip_key",
        args !! u "target_bucket", args !! u "output_prefix" with
  | Some source_bucket, Some zip_key, Some target_bucket, Some output_prefix =>
      process_images_to_tfrecord source_bucket zip_key target_bucket
        output_prefix w
  | _, _, _, _ => (SysExit 2, logged Missing_required_arguments w)
  end.

(** The module run as a script: lines 15-19, then [main()]. A
    [SystemExit] of the argument parser passes the [except Exception] of
    line 17 and ends the process. *)
Definition script (argv : list str) (w : world) : completion * world :=
  match getResolvedOptions argv
          [u "source_bucket"; u "zip_key"; u "target_bucket"; u "output_prefix"]
  with
  | inl (Exception e) => (SysExit 2, logged (Error_parsing_arguments e) w)
  | inl (SystemExit code) => (SysExit code, w)
  | inr args => main args w
  end.

End Script.

(** ** Measures used in the statements *)

(** [sep.join(segments)], the inverse of [split_sep]. *)
Fixpoint join_sep (sep : char) (segments : list str) : str :=
  match segments with
  | [] => []
  | [segment] => segment
  | segment :: rest => segment ++ sep :: join_sep sep rest
  end.

(** Whether line 76 takes the line: it decodes and has six tokens. *)
Definition six_tokens (line : bytes) : bool :=
  match decode_utf8 line with
  | inr text => Nat.eqb (length (split_ws (strip text))) 6
  | inl _ => false
  end.

(** The number of boxes an index holds, over all its keys. *)
Definition box_count (bboxes : gmap str (list bbox)) : nat :=
  map_fold (fun _ boxes n => (length boxes + n)%nat) 0%nat bboxes.

(** An index whose keys are non-empty, free of whitespace, and each
    with at least one box. *)
Definition well_keyed (bboxes : gmap str (list bbox)) : Prop :=
  forall key boxes,
    bboxes !! key = Some boxes ->
    key <> [] /\ Forall (fun c => isspace c = false) key /\ boxes <> [].

(** ** A reference runtime

    A runtime to run the script on in the examples. Its [int()] and
    [float()] read plain ASCII decimal numerals ([-12], [3.50]) as CPython
    does, [float()] rounding correctly to the nearest binary64; the other
    spellings CPython reads (exponents, [inf], [nan], underscores, digits
    outside ASCII) are not used by the examples, and it rejects them. An
    image is its own bytes, a [FloatList] rounds to the nearest binary32,
    a serialized example is its image followed by its labels, one byte
    each, and a zip container is read from a toy layout. *)

Module Reference.

Definition digit (c : char) : option Z :=
  if (48 <=? c) && (c <=? 57) then Some (Z.of_N (c - 48)) else None.

Fixpoint digits_from (acc : Z) (s : str) : option Z :=
  match s with
  | [] => Some acc
  | c :: s' =>
      match digit c with
      | Some d => digits_from (10 * acc + d) s'
      | None => None
      end
  end.

Definition sign_of (s : str) : bool * str :=
  match s with
  | 45 :: s' => (true, s')
  | 43 :: s' => (false, s')
  | _ => (false, s)
  end.

Definition decimal_int (s : str) : exn + Z :=
  let '(neg, body) := sign_of s in
  match body, digits_from 0 body with
  | _ :: _, Some n => inr (if neg then - n else n)%Z
  | _, _ => inl ValueError
  end.

(** The binary64 nearest to [m / 10^k], ties to even: the quotient is
    taken with 64 bits to spare and one sticky bit for the remainder. *)
Definition of_decimal (neg : bool) (m : Z) (k : nat) : float :=
  let d := (10 ^ Z.of_nat k)%Z in
  let s := (Z.log2 d + 64)%Z in
  let n := (m * 2 ^ s)%Z in
  let sticky := (if n mod d =? 0 then 0 else 1)%Z in
  SF2Prim (binary_normalize prec emax
             (cond_Zopp neg (2 * (n / d) + sticky)) (- (s + 1)) neg).

Definition decimal_float (s : str) : exn + float :=
  let '(neg, body) := sign_of s in
  match split_sep 46 body with
  | [whole] =>
      match whole, digits_from 0 whole with
      | _ :: _, Some m => inr (of_decimal neg m 0)
      | _, _ => inl ValueError
      end
  | [whole; frac] =>
      match whole ++ frac, digits_from 0 (whole ++ frac) with
      | _ :: _, Some m => inr (of_decimal neg m (length frac))
      | _, _ => inl ValueError
      end
  | _ => inl ValueError
  end.

Definition round32 (f : float) : float :=
  match Prim2SF f with
  | S754_finite s m e =>
      SF2Prim (binary_normalize 24 128 (cond_Zopp s (Zpos m)) e s)
  | _ => f
  end.

Definition labels_of (example : Example) : list Z :=
  match example !! u "labels" with
  | Some (Int64List value) => value
  | _ => []
  end.

Definition image_of (example : Example) : bytes :=
  match example !! u "image" with
  | Some (BytesList [value]) => value
  | _ => []
  end.

Definition serialize (example : Example) : bytes :=
  image_of example
  ++ ((fun l => default x00%byte (Byte.of_N (Z.to_N l))) <$> labels_of example).

(** A zip container, as the bytes of its members: [name NUL data NUL]
    for each, with no NUL inside a name or a member. *)
Fixpoint members (cur : bytes) (raw : bytes) : list bytes :=
  match raw with
  | [] => []
  | c :: raw' =>
      if Byte.to_N c =? 0 then cur :: members [] raw'
      else members (cur ++ [c]) raw'
  end.

Fixpoint entries (fields : list bytes) : exn + list ZipInfo :=
  match fields with
  | [] => inr []
  | name :: content :: rest =>
      match decode_utf8 name, entries rest with
      | inr n, inr zs => inr ({| filename := n; data := content |} :: zs)
      | _, _ => inl (LibraryError "BadZipFile")
      end
  | _ => inl (LibraryError "BadZipFile")
  end.

Definition zip_of (l : list (string * bytes)) : bytes :=
  flat_map (fun e => b (fst e) ++ [x00%byte] ++ snd e ++ [x00%byte]) l.

(** [getResolvedOptions]: the value that follows [--name], for each name
    asked for. *)
Fixpoint option_value (name : str) (argv : list str) : option str :=
  match argv with
  | [] => None
  | flag :: rest =>
      match rest with
      | value :: _ =>
          if bool_decide (flag = u "--" ++ name) then Some value
          else option_value name rest
      | [] => None
      end
  end.

Fixpoint resolve (argv names : list str) : exn + gmap str str :=
  match names with
  | [] => inr ∅
  | name :: names' =>
      match option_value name argv, resolve argv names' with
      | Some value, inr args => inr (<[name := value]> args)
      | _, _ => inl (LibraryError "GlueArgumentError")
      end
  end.

(** The same bytes with the features laid out the other way round, as
    another process may lay the map out: the labels, then the image. *)
Definition serialize_labels_first (example : Example) : bytes :=
  ((fun l => default x00%byte (Byte.of_N (Z.to_N l))) <$> labels_of example)
  ++ image_of example.

(** [getResolvedOptions] with the argument parser's [--help]. *)
Definition resolve_or_help (argv names : list str) : escape + gmap str str :=
  if bool_decide (u "--help" ∈ argv) then inl (SystemExit 0)
  else match resolve argv names with
       | inl e => inl (Exception e)
       | inr args => inr args
       end.

(** The machine on which S3 holds the object [archive] at [bucket]/[key]
    and nothing else, and takes uploads to any bucket but [bucket]; the
    process lays the features out labels first or not, and [/tmp] is
    read-only or not. *)
Definition machine (labels_first read_only : bool) (bucket key : str)
    (archive : bytes) : Runtime := {|
  py_int := decimal_int;
  py_float := decimal_float;
  Image := bytes;
  Image_open := fun file =>
    match file with
    | [] => inl (LibraryError "UnidentifiedImageError")
    | _ => inr file
    end;
  Image_save_jpeg := fun img => inr img;
  float32 := round32;
  SerializeToString :=
    if labels_first then serialize_labels_first else serialize;
  get_object := fun bucket' key' =>
    if bool_decide (bucket' = bucket /\ key' = key) then inr archive
    else inl (LibraryError "NoSuchKey");
  upload_file := fun body bucket' key' =>
    if bool_decide (bucket' = bucket) then inl (LibraryError "AccessDenied")
    else inr tt;
  ZipFile := fun raw => entries (members [] raw);
  TFRecordWriter := fun file =>
    if read_only then inl (LibraryError "PermissionDeniedError") else inr tt;
  writer_write := fun written record => inr tt;
  getResolvedOptions := resolve_or_help
|}.

(** The runtime of the examples: image first, [/tmp] writable. *)
Definition runtime (bucket key : str) (archive : bytes) : Runtime :=
  machine false false bucket key archive.

End Reference.

(** ** Sample runs

    Archives and worlds to run the script on, in the reference runtime
    with the archive stored at [raw]/[data.zip]. *)

Module Sample.

Definition rt (archive : bytes) : Runtime :=
  Reference.runtime (u "raw") (u "data.zip") archive.

Definition newline : bytes := [x0a%byte].

(** Two images and a nested label file that names the first only. *)
Definition labelled : bytes :=
  Reference.zip_of
    [ ("a.jpg"%string, b "AAA");
      ("b.jpg"%string, b "BB");
      ("labels/location.txt"%string,
       b "a.jpg 3 10 20 5 8" ++ newline ++ b "a.jpg 7 0.5 1.25 2 2" ++ newline) ].

(** The archive of C2's example. *)
Definition two_images : bytes :=
  Reference.zip_of
    [ ("a.jpg"%string, b "AAA");
      ("b.jpg"%string, b "BB");
      ("location.txt"%string, b "a.jpg 3 10 20 5 8" ++ newline) ].

(** An archive with no label file. *)
Definition unlabelled_archive : bytes :=
  Reference.zip_of [ ("a.jpg"%string, b "AAA") ].

(** The second of three images does not decode. *)
Definition one_bad_image : bytes :=
  Reference.zip_of
    [ ("location.txt"%string, b "a.jpg 3 10 20 5 8" ++ newline);
      ("a.jpg"%string, b "AAA");
      ("bad.png"%string, []);
      ("c.jpg"%string, b "CC") ].

(** The class id of the second label line is not a number. *)
Definition bad_class_id : bytes :=
  Reference.zip_of
    [ ("location.txt"%string,
       b "a.jpg 3 10 20 5 8" ++ newline ++ b "a.jpg car 10 20 5 8" ++ newline);
      ("a.jpg"%string, b "AAA") ].

(** The label file names its image with a directory. *)
Definition nested_names : bytes :=
  Reference.zip_of
    [ ("sub/a.jpg"%string, b "AAA");
      ("location.txt"%string, b "sub/a.jpg 3 10 20 5 8" ++ newline) ].

Definition box_a : bbox :=
  {| xmin := 10; ymin := 20; xmax := 15; ymax := 28; label := 3 |}.

Definition box_a' : bbox :=
  {| xmin := 0.5; ymin := 1.25; xmax := 2.5; ymax := 3.25; label := 7 |}.

(** A fresh machine, and one where an earlier run left its file, an
    upload and a line of log. *)
Definition fresh : world :=
  {| tfrecord_file := None; upload_calls := []; log := [] |}.

Definition used : world :=
  {| tfrecord_file := Some [b "old"];
     upload_calls := [([b "old"], u "out", u "old/data.tfrecord")];
     log := [Location_txt_not_found] |}.

(** What [ZipFile] lists for [two_images] and for [one_bad_image]. *)
Definition member (name : string) (content : bytes) : ZipInfo :=
  {| filename := u name; data := content |}.

Definition label_file_a : bytes := b "a.jpg 3 10 20 5 8" ++ newline.

Definition two_images_listing : list ZipInfo :=
  [ member "a.jpg" (b "AAA"); member "b.jpg" (b "BB");
    member "location.txt" label_file_a ].

Definition index_a : gmap str (list bbox) := {[ u "a.jpg" := [box_a] ]}.

Definition one_bad_image_listing : list ZipInfo :=
  [ member "location.txt" label_file_a; member "a.jpg" (b "AAA");
    member "bad.png" []; member "c.jpg" (b "CC") ].

Definition label_file_car : bytes :=
  b "a.jpg 3 10 20 5 8" ++ newline ++ b "a.jpg car 10 20 5 8" ++ newline.

(** The records of [a.jpg], with its label 3, and of [b.jpg]. *)
Definition record_a : bytes := b "AAA" ++ [x03%byte].
Definition record_b : bytes := b "BB".

Definition argv : list str :=
  [ u "raw_to_tfrecord.py"; u "--source_bucket"; u "raw";
    u "--zip_key"; u "data.zip"; u "--target_bucket"; u "out";
    u "--output_prefix"; u "tf" ].

(** The same machine seen by a process that lays the features out the
    other way round, and a machine whose [/tmp] is read-only. *)
Definition rt_labels_first (archive : bytes) : Runtime :=
  Reference.machine true false (u "raw") (u "data.zip") archive.

Definition rt_read_only (archive : bytes) : Runtime :=
  Reference.machine false true (u "raw") (u "data.zip") archive.

Definition record_a_labels_first : bytes := [x03%byte] ++ b "AAA".

(** A label file of three lines, the second of them with six tokens. *)
Definition label_file_three : bytes :=
  b "img1.jpg 3 10 20 5" ++ newline ++ b "img1.jpg 3 10 20 5 8" ++ newline
  ++ b "# end".

(** A label file alone in its archive. *)
Definition labels_only : bytes :=
  Reference.zip_of [ ("location.txt"%string, label_file_a) ].

(** Two label files, and two members under one name. *)
Definition two_label_files : list ZipInfo :=
  [ member "a.jpg" (b "AAA"); member "x/location.txt" label_file_a;
    member "location.txt" label_file_car ].

Definition twice_a : list ZipInfo :=
  [ member "a.jpg" (b "first"); member "location.txt" label_file_a;
    member "a.jpg" (b "second") ].

(** Two label files under one name, the first of them unreadable. *)
Definition same_name_label_files : list ZipInfo :=
  [ member "location.txt" label_file_car; member "a.jpg" (b "AAA");
    member "location.txt" label_file_a ].

Definition label_line_a' : bytes := b "a.jpg 7 0.5 1.25 2 2" ++ newline.

Definition index_aa : gmap str (list bbox) := {[ u "a.jpg" := [box_a; box_a'] ]}.

End Sample.

(** * Properties *)

#[local] Arguments u : simpl never.
#[local] Arguments endswith : simpl never.
#[local] Arguments is_image : simpl never.
#[local] Arguments base_name : simpl never.
#[local] Arguments readlines : simpl never.
#[local] Arguments images : simpl never.

(** ** Text helpers on the source's literals *)

Example endswith_nested :
  endswith (u "data/location.txt") (u "location.txt") = true.
Proof. reflexivity. Qed.

Example is_image_case_sensitive :
  is_image (u "A.JPG") = false /\ is_image (u "a.jpeg") = true
  /\ is_image (u "a.jpg.txt") = false.
Proof. repeat split. Qed.

Example split_sep_path : split_sep 47 (u "a/b/c.jpg") = [u "a"; u "b"; u "c.jpg"].
Proof. reflexivity. Qed.

Example split_ws_line :
  split_ws (strip (u "  img1.jpg 3   10 ")) = [u "img1.jpg"; u "3"; u "10"].
Proof. reflexivity. Qed.

(** A no-break space (U+00A0, two bytes in UTF-8) separates tokens too. *)
Example parts_of_no_break_space :
  parts_of (b "a.jpg" ++ [xc2; xa0]%byte ++ b "3" ++ [x0d; x0a]%byte)
  = inr [u "a.jpg"; u "3"].
Proof. reflexivity. Qed.

Example readlines_two :
  readlines (b "ab" ++ [x0a%byte] ++ b "c") = [b "ab" ++ [x0a%byte]; b "c"].
Proof. reflexivity. Qed.

Example decode_e_acute : decode_utf8 [xc3; xa9]%byte = inr [0xE9].
Proof. reflexivity. Qed.

Example decode_overlong : decode_utf8 [xc0; x80]%byte = inl UnicodeDecodeError.
Proof. reflexivity. Qed.

(** [--help] ends the process with the parser's status, past the
    [except Exception] of line 17: nothing is logged. *)
Example script_help :
  @script (Sample.rt Sample.two_images) (Sample.argv ++ [u "--help"]) Sample.used
  = (SysExit 0, Sample.used).
Proof. reflexivity. Qed.

(** Of two label files under one name, the scan stops at the first and
    reads the second. *)
Example scan_location_same_name :
  @scan_location (Sample.rt Sample.two_images) Sample.same_name_label_files
    Sample.same_name_label_files ∅
  = inr (true, Sample.index_a).
Proof. vm_compute. reflexivity. Qed.

(** Of two members with one name, [zip_ref.open(name)] reads the later. *)
Example zip_open_duplicate :
  zip_open [ {| filename := u "a.jpg"; data := b "first" |};
             {| filename := u "a.jpg"; data := b "second" |} ] (u "a.jpg")
  = inr (b "second").
Proof. reflexivity. Qed.

(** No segment of [s.split(sep)] holds the separator. *)
Lemma split_sep_free sep s : Forall (fun seg => sep ∉ seg) (split_sep sep s).
Proof.
  induction s as [|c s IH]; simpl.
  - repeat constructor. apply not_elem_of_nil.
  - destruct (N.eqb_spec c sep) as [->|Hne].
    + constructor; [apply not_elem_of_nil | exact IH].
    + destruct (split_sep sep s) as [|seg segs].
      * repeat constructor. intros [->|H]%elem_of_cons; [done|].
        by apply not_elem_of_nil in H.
      * inversion IH as [|? ? Hseg Hsegs]; subst. constructor; [|done].
        intros [->|H]%elem_of_cons; done.
Qed.

Lemma split_sep_nonempty sep s : split_sep sep s <> [].
Proof.
  destruct s as [|c s]; simpl; [done|].
  destruct (c =? sep); [done|]. by destruct (split_sep sep s).
Qed.

(** The last path segment has no slash in it. *)
Lemma base_name_no_slash name : 47 ∉ base_name name.
Proof.
  unfold base_name, last_item.
  pose proof (split_sep_free 47 name) as Hfree.
  pose proof (split_sep_nonempty 47 name) as Hne.
  destruct (exists_last Hne) as (front & seg & Heq). rewrite Heq in *.
  rewrite last_last. apply Forall_app in Hfree as [_ Hseg].
  by inversion Hseg.
Qed.

(** A name with no slash is its own last segment. *)
Lemma split_sep_absent sep s : sep ∉ s -> split_sep sep s = [s].
Proof.
  induction s as [|c s IH]; intros Hs; simpl; [done|].
  apply not_elem_of_cons in Hs as [Hc Hs].
  destruct (N.eqb_spec c sep) as [->|_]; [done|]. by rewrite IH.
Qed.

Lemma base_name_plain name : 47 ∉ name -> base_name name = name.
Proof. intros H. unfold base_name. by rewrite split_sep_absent. Qed.

(** ** The lines of a file *)

Lemma readlines_from_concat cur raw : concat (readlines_from cur raw) = cur ++ raw.
Proof.
  revert cur. induction raw as [|c raw IH]; intros cur; cbn.
  - destruct cur; cbn; by rewrite ?app_nil_r.
  - destruct (Byte.to_N c =? 10); cbn; rewrite IH; by rewrite <- ?app_assoc.
Qed.

(** A run of bytes other than [\n], then [\n], is one line. *)
Lemma readlines_from_terminated cur body tail :
  Forall (fun c => Byte.to_N c <> 10) body ->
  readlines_from cur (body ++ x0a%byte :: tail)
  = (cur ++ body ++ [x0a%byte]) :: readlines_from [] tail.
Proof.
  intros Hbody. revert cur.
  induction Hbody as [|c body Hc _ IH]; intros cur; cbn; [done|].
  apply N.eqb_neq in Hc. rewrite Hc, IH. by rewrite <- app_assoc.
Qed.

(** What is left after the last [\n] is a line if it is not empty. *)
Lemma readlines_from_last cur body :
  Forall (fun c => Byte.to_N c <> 10) body ->
  readlines_from cur body
  = match cur ++ body with [] => [] | _ => [cur ++ body] end.
Proof.
  intros Hbody. revert cur.
  induction Hbody as [|c body Hc _ IH]; intros cur; cbn.
  - rewrite app_nil_r. by destruct cur.
  - apply N.eqb_neq in Hc. rewrite Hc, IH. by rewrite <- app_assoc.
Qed.

(** The lines up to a [\n] do not depend on what follows it. *)
Lemma readlines_from_app cur head rest :
  readlines_from cur (head ++ x0a%byte :: rest)
  = readlines_from cur (head ++ [x0a%byte]) ++ readlines_from [] rest.
Proof.
  revert cur. induction head as [|c head IH]; intros cur; cbn; [done|].
  destruct (Byte.to_N c =? 10); cbn; by rewrite IH.
Qed.

(** The lines of a file that continues after a line end are the lines up
    to there, then the lines of the rest. *)
Lemma readlines_app head rest :
  head = [] \/ (exists h, head = h ++ [x0a%byte]) ->
  readlines (head ++ rest) = readlines head ++ readlines rest.
Proof.
  intros [->|[h ->]]; [done|]. unfold readlines.
  rewrite <- app_assoc. cbn [app]. apply readlines_from_app.
Qed.

(** A line as the iteration gives it: terminated, or the last of the
    file and not empty. *)
Lemma readlines_line head line tail :
  head = [] \/ (exists h, head = h ++ [x0a%byte]) ->
  (exists body, line = body ++ [x0a%byte]
                /\ Forall (fun c => Byte.to_N c <> 10) body)
  \/ (tail = [] /\ line <> [] /\ Forall (fun c => Byte.to_N c <> 10) line) ->
  readlines (head ++ line ++ tail) = readlines head ++ line :: readlines tail.
Proof.
  intros Hhead Hline. rewrite (readlines_app _ _ Hhead). f_equal.
  unfold readlines.
  destruct Hline as [(body & -> & Hbody)|(-> & Hne & Hbody)].
  - rewrite <- app_assoc. cbn [app].
    by rewrite (readlines_from_terminated _ _ _ Hbody).
  - rewrite app_nil_r, (readlines_from_last _ _ Hbody). cbn [app].
    by destruct line.
Qed.

(** Every file is a sequence of terminated runs and a last run, and its
    lines are these. *)
Lemma readlines_from_decompose cur raw :
  Forall (fun c => Byte.to_N c <> 10) cur ->
  exists bodies last,
    Forall (Forall (fun c => Byte.to_N c <> 10)) bodies
    /\ Forall (fun c => Byte.to_N c <> 10) last
    /\ cur ++ raw = concat ((fun body => body ++ [x0a%byte]) <$> bodies) ++ last
    /\ readlines_from cur raw
       = ((fun body => body ++ [x0a%byte]) <$> bodies)
         ++ match last with [] => [] | _ => [last] end.
Proof.
  revert cur. induction raw as [|c raw IH]; intros cur Hcur.
  - exists [], cur. rewrite app_nil_r. by split_and!.
  - cbn [readlines_from]. destruct (N.eqb_spec (Byte.to_N c) 10) as [Hc|Hc].
    + destruct (IH [] (List.Forall_nil _)) as (bodies & last & Hb & Hl & Hraw & Hlines).
      exists (cur :: bodies), last. split_and!; [by constructor|done| |].
      * cbn. rewrite <- !app_assoc. cbn [app]. f_equal.
        pose proof (Byte.of_to_N c) as Hof. rewrite Hc in Hof.
        injection Hof as <-. f_equal. exact Hraw.
      * cbn. rewrite Hlines. do 2 f_equal.
        pose proof (Byte.of_to_N c) as Hof. rewrite Hc in Hof.
        by injection Hof as <-.
    + destruct (IH (cur ++ [c])) as (bodies & last & Hb & Hl & Hraw & Hlines).
      { apply Forall_app. split; [done|]. by constructor. }
      exists bodies, last. split_and!; [done..| |done].
      by rewrite <- Hraw, <- app_assoc.
Qed.

(** ** The label parser *)

Section LabelParser.
Context `{RT : Runtime}.
Implicit Types (bboxes : gmap str (list bbox)) (line : bytes).

(** The box a six-token line stands for, once its numerals are read. *)
Lemma label_line_accepted line image_name class_id x y width height
    fx fy fw fh l bboxes :
  parts_of line = inr [image_name; class_id; x; y; width; height] ->
  py_float x = inr fx -> py_float y = inr fy ->
  py_float width = inr fw -> py_float height = inr fh ->
  py_int class_id = inr l ->
  label_line line bboxes =
    inr (<[image_name :=
             default [] (bboxes !! image_name)
             ++ [ {| xmin := fx; ymin := fy;
                     xmax := (fx + fw)%float; ymax := (fy + fh)%float;
                     label := l |} ] ]> bboxes).
Proof.
  intros Hparts Hx Hy Hw Hh Hl. unfold label_line.
  rewrite Hparts. cbn. rewrite Hx, Hy. cbn. rewrite Hw. cbn. rewrite Hh, Hl.
  cbn. f_equal. apply map_eq. intros key.
  destruct (decide (image_name = key)) as [->|Hne].
  - rewrite lookup_alter_eq, lookup_insert_eq.
    destruct (bboxes !! key) as [boxes|] eqn:Hkey; cbn.
    + by rewrite Hkey.
    + by rewrite lookup_insert_eq.
  - rewrite lookup_alter_ne, lookup_insert_ne by done.
    destruct (bboxes !! image_name); [done|]. by rewrite lookup_insert_ne.
Qed.

(** A line with another number of tokens leaves the dict as it is. *)
Lemma label_line_skipped line parts bboxes :
  parts_of line = inr parts -> length parts <> 6%nat ->
  label_line line bboxes = inr bboxes.
Proof.
  intros Hparts Hlen. unfold label_line. rewrite Hparts. cbn.
  do 7 (destruct parts as [|? parts]; [done|]). done.
Qed.

(** A six-token line with a numeral that does not read raises. *)
Lemma label_line_unreadable line image_name class_id x y width height bboxes :
  parts_of line = inr [image_name; class_id; x; y; width; height] ->
  (exists e, py_int class_id = inl e) \/ (exists e, py_float x = inl e)
  \/ (exists e, py_float y = inl e) \/ (exists e, py_float width = inl e)
  \/ (exists e, py_float height = inl e) ->
  exists e, label_line line bboxes = inl e.
Proof.
  intros Hparts Hbad. unfold label_line. rewrite Hparts. cbn.
  destruct (py_float x) as [e|fx] eqn:Hx; cbn; [by eexists|].
  destruct (py_float y) as [e|fy] eqn:Hy; cbn; [by eexists|].
  destruct (py_float width) as [e|fw] eqn:Hw; cbn; [by eexists|].
  destruct (py_float height) as [e|fh] eqn:Hh; cbn; [by eexists|].
  destruct (py_int class_id) as [e|l] eqn:Hl; cbn; [by eexists|].
  destruct Hbad as [[e H]|[[e H]|[[e H]|[[e H]|[e H]]]]]; done.
Qed.

(** Conversely, a six-token line that parses had five readable numerals. *)
Lemma label_line_parsed line image_name class_id x y width height
    bboxes bboxes' :
  parts_of line = inr [image_name; class_id; x; y; width; height] ->
  label_line line bboxes = inr bboxes' ->
  exists fx fy fw fh l,
    py_float x = inr fx /\ py_float y = inr fy /\ py_float width = inr fw
    /\ py_float height = inr fh /\ py_int class_id = inr l.
Proof.
  intros Hparts. unfold label_line. rewrite Hparts. cbn.
  destruct (py_float x) as [e|fx]; cbn; [done|].
  destruct (py_float y) as [e|fy]; cbn; [done|].
  destruct (py_float width) as [e|fw]; cbn; [done|].
  destruct (py_float height) as [e|fh]; cbn; [done|].
  destruct (py_int class_id) as [e|l]; cbn; [done|].
  intros _. by exists fx, fy, fw, fh, l.
Qed.

Lemma label_lines_app lines1 lines2 bboxes :
  label_lines (lines1 ++ lines2) bboxes =
    match label_lines lines1 bboxes with
    | inl e => inl e
    | inr bboxes' => label_lines lines2 bboxes'
    end.
Proof.
  revert bboxes. induction lines1 as [|line lines1 IH]; intros bboxes; [done|].
  cbn. destruct (label_line line bboxes) as [e|bboxes']; cbn; [done|]. apply IH.
Qed.

(** Once a line raises, so does the loop, wherever the line stands. *)
Lemma label_lines_raise lines line :
  line ∈ lines ->
  (forall bboxes, exists e, label_line line bboxes = inl e) ->
  forall bboxes, exists e, label_lines lines bboxes = inl e.
Proof.
  intros Hin Hraise. induction lines as [|line' lines IH]; intros bboxes.
  - by apply not_elem_of_nil in Hin.
  - cbn. apply elem_of_cons in Hin as [<-|Hin].
    + destruct (Hraise bboxes) as [e ->]. by eexists.
    + destruct (label_line line' bboxes) as [e|bboxes']; cbn; [by eexists|].
      by apply IH.
Qed.

(** Parsing only ever appends: the boxes of a key stay, in their order. *)
Lemma label_line_grows line bboxes bboxes' key boxes :
  label_line line bboxes = inr bboxes' -> bboxes !! key = Some boxes ->
  exists more, bboxes' !! key = Some (boxes ++ more).
Proof.
  unfold label_line. destruct (parts_of line) as [e|parts]; cbn; [done|].
  intros Hline Hkey.
  assert (Hsame : @inr exn _ bboxes = inr bboxes' ->
                  exists more, bboxes' !! key = Some (boxes ++ more)).
  { intros [= <-]. exists []. by rewrite app_nil_r. }
  destruct parts as [|image_name parts]; [by apply Hsame|].
  destruct parts as [|class_id parts]; [by apply Hsame|].
  destruct parts as [|x parts]; [by apply Hsame|].
  destruct parts as [|y parts]; [by apply Hsame|].
  destruct parts as [|width parts]; [by apply Hsame|].
  destruct parts as [|height parts]; [by apply Hsame|].
  destruct parts; [|by apply Hsame]. clear Hsame.
  destruct (py_float x) as [?|fx]; cbn in Hline; [done|].
  destruct (py_float y) as [?|fy]; cbn in Hline; [done|].
  destruct (py_float width) as [?|fw]; cbn in Hline; [done|].
  destruct (py_float height) as [?|fh]; cbn in Hline; [done|].
  destruct (py_int class_id) as [?|l]; cbn in Hline; [done|].
  injection Hline as <-.
  destruct (decide (image_name = key)) as [->|Hne].
  - rewrite lookup_alter_eq, Hkey. cbn. rewrite Hkey. by eexists.
  - rewrite lookup_alter_ne by done. exists [].
    rewrite app_nil_r. destruct (bboxes !! image_name); [done|].
    by rewrite lookup_insert_ne.
Qed.

Lemma label_lines_grows lines bboxes bboxes' key boxes :
  label_lines lines bboxes = inr bboxes' -> bboxes !! key = Some boxes ->
  exists more, bboxes' !! key = Some (boxes ++ more).
Proof.
  revert bboxes boxes. induction lines as [|line lines IH]; intros bboxes boxes.
  - intros [= <-] Hkey. exists []. by rewrite app_nil_r.
  - cbn. destruct (label_line line bboxes) as [e|bboxes1] eqn:Hline; cbn; [done|].
    intros Hrest Hkey.
    destruct (label_line_grows _ _ _ _ _ Hline Hkey) as [more1 Hkey1].
    destruct (IH _ _ Hrest Hkey1) as [more2 Hkey2].
    exists (more1 ++ more2). by rewrite app_assoc.
Qed.

(** The loop of line 74 around an accepted line. *)
Lemma label_lines_around head line tail box image_name bboxes :
  head = [] \/ (exists h, head = h ++ [x0a%byte]) ->
  (exists body, line = body ++ [x0a%byte]
                /\ Forall (fun c => Byte.to_N c <> 10) body)
  \/ (tail = [] /\ line <> [] /\ Forall (fun c => Byte.to_N c <> 10) line) ->
  (forall mid,
     label_line line mid
     = inr (<[image_name := default [] (mid !! image_name) ++ [box]]> mid)) ->
  label_lines (readlines (head ++ line ++ tail)) bboxes
  = match label_lines (readlines head) bboxes with
    | inl e => inl e
    | inr mid =>
        label_lines (readlines tail)
          (<[image_name := default [] (mid !! image_name) ++ [box]]> mid)
    end.
Proof.
  intros Hhead Hline Hbox.
  rewrite (readlines_line _ _ _ Hhead Hline), label_lines_app.
  destruct (label_lines (readlines head) bboxes) as [e|mid]; [done|].
  cbn. by rewrite Hbox.
Qed.

End LabelParser.

(** ** The archive pipeline *)

Section Pipeline.
Context `{RT : Runtime}.
Implicit Types (bboxes : gmap str (list bbox)) (zip_ref infolist : list ZipInfo).
Implicit Types (w : world) (written records : list bytes).

Lemma with_file_same w written :
  tfrecord_file w = Some written -> with_file written w = w.
Proof. destruct w; cbn; by intros ->. Qed.

(** A name of the listing opens. *)
Lemma zip_open_listed zip_ref file_info :
  file_info ∈ zip_ref ->
  exists zi, zip_open zip_ref (filename file_info) = inr (data zi)
             /\ zi ∈ zip_ref /\ filename zi = filename file_info.
Proof.
  intros Hin. unfold zip_open, getinfo.
  destruct (List.find _ (rev zip_ref)) as [zi|] eqn:Hfind.
  - apply find_some in Hfind as [Hzi Hname].
    apply bool_decide_eq_true in Hname.
    exists zi. repeat split; [|done]. apply list_elem_of_In. by apply in_rev.
  - exfalso. eapply find_none in Hfind.
    + apply bool_decide_eq_false in Hfind. by apply Hfind.
    + apply in_rev. rewrite rev_involutive. by apply list_elem_of_In.
Qed.

(** The scan for the label file: nothing found, or the first match read. *)
Lemma scan_location_absent zip_ref infolist bboxes :
  Forall (fun fi => endswith (filename fi) (u "location.txt") = false) infolist ->
  scan_location zip_ref infolist bboxes = inr (false, bboxes).
Proof.
  induction 1 as [|fi infolist Hfi _ IH]; cbn; [done|]. by rewrite Hfi.
Qed.

Lemma scan_location_first zip_ref before location after bboxes :
  Forall (fun fi => endswith (filename fi) (u "location.txt") = false) before ->
  endswith (filename location) (u "location.txt") = true ->
  scan_location zip_ref (before ++ location :: after) bboxes =
    match zip_open zip_ref (filename location) with
    | inl e => inl e
    | inr label_file =>
        match label_lines (readlines label_file) bboxes with
        | inl e => inl e
        | inr bboxes' => inr (true, bboxes')
        end
    end.
Proof.
  intros Hbefore Hloc.
  induction Hbefore as [|fi before Hfi _ IH]; cbn.
  - rewrite Hloc. destruct (zip_open _ _); cbn; [done|].
    by destruct (label_lines _ _).
  - by rewrite Hfi.
Qed.

(** One pass of the image loop. *)
Lemma write_images_cons zip_ref file_info rest bboxes w :
  write_images zip_ref (file_info :: rest) bboxes w =
    if is_image (filename file_info) then
      match record_of zip_ref bboxes file_info with
      | inl e => (inl e, w)
      | inr record =>
          match writer_write (default [] (tfrecord_file w)) record with
          | inl e => (inl e, w)
          | inr _ =>
              write_images zip_ref rest bboxes
                (with_file (default [] (tfrecord_file w) ++ [record]) w)
          end
      end
    else write_images zip_ref rest bboxes w.
Proof.
  cbn. unfold mbind, M_bind, pure, write, mret, M_ret.
  destruct (is_image _); [|done].
  destruct (record_of _ _ _); [done|]. by destruct (writer_write _ _).
Qed.

Lemma write_images_app zip_ref infolist1 infolist2 bboxes w :
  write_images zip_ref (infolist1 ++ infolist2) bboxes w =
    match write_images zip_ref infolist1 bboxes w with
    | (inl e, w') => (inl e, w')
    | (inr _, w') => write_images zip_ref infolist2 bboxes w'
    end.
Proof.
  revert w. induction infolist1 as [|fi infolist1 IH]; intros w; [done|].
  rewrite <- app_comm_cons, !write_images_cons.
  destruct (is_image _); [|apply IH].
  destruct (record_of _ _ _); [done|].
  destruct (writer_write _ _); [done|]. apply IH.
Qed.

Lemma images_cons_image file_info infolist :
  is_image (filename file_info) = true ->
  images (file_info :: infolist) = file_info :: images infolist.
Proof. intros H. unfold images. cbn. by rewrite H. Qed.

Lemma images_cons_other file_info infolist :
  is_image (filename file_info) = false ->
  images (file_info :: infolist) = images infolist.
Proof. intros H. unfold images. cbn. by rewrite H. Qed.

(** When every image member has a record and the writer takes them all,
    the loop ends normally with exactly these records appended. *)
Lemma write_images_total zip_ref infolist bboxes w written records :
  tfrecord_file w = Some written ->
  Forall2 (fun fi record => record_of zip_ref bboxes fi = inr record)
    (images infolist) records ->
  accepted written records ->
  write_images zip_ref infolist bboxes w
  = (inr tt, with_file (written ++ records) w).
Proof.
  revert w written records.
  induction infolist as [|fi infolist IH]; intros w written records Hfile Hrec Hacc.
  - inversion Hrec; subst. rewrite app_nil_r, with_file_same; done.
  - rewrite write_images_cons.
    destruct (is_image (filename fi)) eqn:Hfi.
    + rewrite images_cons_image in Hrec by done.
      inversion Hrec as [|? record ? records' Hfirst Hrest]; subst.
      destruct Hacc as [Hwrite Hacc].
      rewrite Hfirst, Hfile. cbn. rewrite Hwrite.
      rewrite (IH _ (written ++ [record]) records'); [|done..].
      by rewrite <- app_assoc.
    + rewrite images_cons_other in Hrec by done. by apply IH.
Qed.

(** What the loop leaves, however it ends: the records of the image
    members it got through, in listing order, and when it raised, the
    member at which it did. *)
Lemma write_images_spec zip_ref infolist bboxes w written r w' :
  tfrecord_file w = Some written ->
  write_images zip_ref infolist bboxes w = (r, w') ->
  exists records,
    w' = with_file (written ++ records) w /\ accepted written records /\
    match r with
    | inr _ =>
        Forall2 (fun fi record => record_of zip_ref bboxes fi = inr record)
          (images infolist) records
    | inl e =>
        exists before bad after,
          infolist = before ++ bad :: after /\
          is_image (filename bad) = true /\
          Forall2 (fun fi record => record_of zip_ref bboxes fi = inr record)
            (images before) records /\
          (record_of zip_ref bboxes bad = inl e \/
           exists record, record_of zip_ref bboxes bad = inr record /\
                          writer_write (written ++ records) record = inl e)
    end.
Proof.
  revert w written r w'.
  induction infolist as [|fi infolist IH]; intros w written r w' Hfile.
  - intros [= <- <-]. exists []. rewrite app_nil_r, with_file_same by done.
    repeat split. constructor.
  - rewrite write_images_cons.
    destruct (is_image (filename fi)) eqn:Hfi.
    + destruct (record_of zip_ref bboxes fi) as [e|record] eqn:Hrec.
      { intros [= <- <-]. exists []. rewrite app_nil_r, with_file_same by done.
        split_and!; [done..|]. exists [], fi, infolist.
        split_and!; [done..|constructor|by left]. }
      rewrite Hfile. cbn.
      destruct (writer_write written record) as [e|[]] eqn:Hwrite.
      { intros [= <- <-]. exists []. rewrite app_nil_r, with_file_same by done.
        split_and!; [done..|]. exists [], fi, infolist.
        split_and!; [done..|constructor|]. right. by exists record. }
      intros Hrest.
      destruct (IH (with_file (written ++ [record]) w) (written ++ [record])
                  r w' eq_refl Hrest) as (records & -> & Hacc & Hr).
      exists (record :: records). rewrite <- app_assoc. split_and!; [done..|].
      destruct r as [e|[]].
      * destruct Hr as (before & bad & after & -> & Hbad & Hbefore & Hwhy).
        exists (fi :: before), bad, after. split_and!; [done..| |].
        -- rewrite images_cons_image by done. by constructor.
        -- rewrite <- app_assoc in Hwhy. exact Hwhy.
      * rewrite images_cons_image by done. by constructor.
    + intros Hrest.
      destruct (IH w written r w' Hfile Hrest) as (records & -> & Hacc & Hr).
      exists records. split_and!; [done..|].
      destruct r as [e|[]].
      * destruct Hr as (before & bad & after & -> & Hbad & Hbefore & Hwhy).
        exists (fi :: before), bad, after. split_and!; [done..| |done].
        by rewrite images_cons_other.
      * by rewrite images_cons_other.
Qed.

(** The four ways the body of the [try] goes on after the scan. *)
Ltac after_scan Hget Hzip Hscan :=
  unfold try_body, mbind, M_bind, pure; rewrite Hget, Hzip, Hscan.

Lemma try_body_scan_raises source_bucket zip_key target_bucket output_prefix
    w buffer zip_ref e :
  get_object source_bucket zip_key = inr buffer ->
  ZipFile buffer = inr zip_ref ->
  scan_location zip_ref zip_ref ∅ = inl e ->
  try_body source_bucket zip_key target_bucket output_prefix w = (inl e, w).
Proof.
  intros Hget Hzip Hscan. by after_scan Hget Hzip Hscan.
Qed.

Lemma try_body_not_found source_bucket zip_key target_bucket output_prefix
    w buffer zip_ref bboxes :
  get_object source_bucket zip_key = inr buffer ->
  ZipFile buffer = inr zip_ref ->
  scan_location zip_ref zip_ref ∅ = inr (false, bboxes) ->
  try_body source_bucket zip_key target_bucket output_prefix w
  = (inr tt, logged Location_txt_not_found w).
Proof.
  intros Hget Hzip Hscan. by after_scan Hget Hzip Hscan.
Qed.

Lemma try_body_writer_fails source_bucket zip_key target_bucket output_prefix
    w buffer zip_ref bboxes e :
  get_object source_bucket zip_key = inr buffer ->
  ZipFile buffer = inr zip_ref ->
  scan_location zip_ref zip_ref ∅ = inr (true, bboxes) ->
  TFRecordWriter (tfrecord_file w) = inl e ->
  try_body source_bucket zip_key target_bucket output_prefix w = (inl e, w).
Proof.
  intros Hget Hzip Hscan Hopen. after_scan Hget Hzip Hscan. cbn.
  unfold writer_open. by rewrite Hopen.
Qed.

Lemma try_body_found source_bucket zip_key target_bucket output_prefix
    w buffer zip_ref bboxes :
  get_object source_bucket zip_key = inr buffer ->
  ZipFile buffer = inr zip_ref ->
  scan_location zip_ref zip_ref ∅ = inr (true, bboxes) ->
  TFRecordWriter (tfrecord_file w) = inr tt ->
  try_body source_bucket zip_key target_bucket output_prefix w =
    match write_images zip_ref zip_ref bboxes (with_file [] w) with
    | (inl e, w') => (inl e, w')
    | (inr _, w') => upload target_bucket (output_prefix ++ u "/data.tfrecord") w'
    end.
Proof.
  intros Hget Hzip Hscan Hopen. after_scan Hget Hzip Hscan. cbn.
  unfold writer_open. rewrite Hopen.
  by destruct (write_images _ _ _ _) as [[?|[]] ?].
Qed.

Lemma with_file_twice records1 records2 w :
  with_file records2 (with_file records1 w) = with_file records2 w.
Proof. done. Qed.

Lemma upload_with_file bucket key records w :
  upload bucket key (with_file records w) =
    (match upload_file records bucket key with
     | inl e => inl e
     | inr _ => inr tt
     end, with_upload (records, bucket, key) (with_file records w)).
Proof. done. Qed.

(** The whole function once the label file is found and parsed and the
    writer has opened: the image loop on the emptied file, then the upload,
    and the handler around. *)
Lemma process_found source_bucket zip_key target_bucket output_prefix
    w buffer zip_ref bboxes :
  get_object source_bucket zip_key = inr buffer ->
  ZipFile buffer = inr zip_ref ->
  scan_location zip_ref zip_ref ∅ = inr (true, bboxes) ->
  TFRecordWriter (tfrecord_file w) = inr tt ->
  process_images_to_tfrecord source_bucket zip_key target_bucket output_prefix w =
    match write_images zip_ref zip_ref bboxes (with_file [] w) with
    | (inl e, w') => (SysExit 2, logged (Error_processing_images e) w')
    | (inr _, w') =>
        match upload target_bucket (output_prefix ++ u "/data.tfrecord") w' with
        | (inl e, w'') => (SysExit 2, logged (Error_processing_images e) w'')
        | (inr _, w'') => (Returned, w'')
        end
    end.
Proof.
  intros Hget Hzip Hscan Hopen. unfold process_images_to_tfrecord.
  rewrite (try_body_found _ _ _ _ _ _ _ _ Hget Hzip Hscan Hopen).
  destruct (write_images _ _ _ _) as [[e|[]] w']; [done|].
  by destruct (upload _ _ _) as [[e|[]] w''].
Qed.

(** And when the writer cannot open: the handler, the world as it was. *)
Lemma process_writer_fails source_bucket zip_key target_bucket output_prefix
    w buffer zip_ref bboxes e :
  get_object source_bucket zip_key = inr buffer ->
  ZipFile buffer = inr zip_ref ->
  scan_location zip_ref zip_ref ∅ = inr (true, bboxes) ->
  TFRecordWriter (tfrecord_file w) = inl e ->
  process_images_to_tfrecord source_bucket zip_key target_bucket output_prefix w
  = (SysExit 2, logged (Error_processing_images e) w).
Proof.
  intros Hget Hzip Hscan Hopen. unfold process_images_to_tfrecord.
  by rewrite (try_body_writer_fails _ _ _ _ _ _ _ _ e Hget Hzip Hscan Hopen).
Qed.

(** The image loop stopped by the member [bad]. *)
Lemma write_images_stopped zip_ref before bad after bboxes w written records e :
  tfrecord_file w = Some written ->
  is_image (filename bad) = true ->
  Forall2 (fun fi record => record_of zip_ref bboxes fi = inr record)
    (images before) records ->
  accepted written records ->
  (record_of zip_ref bboxes bad = inl e \/
   exists record, record_of zip_ref bboxes bad = inr record /\
                  writer_write (written ++ records) record = inl e) ->
  write_images zip_ref (before ++ bad :: after) bboxes w
  = (inl e, with_file (written ++ records) w).
Proof.
  intros Hfile Hbad Hbefore Hacc Hwhy.
  rewrite write_images_app, (write_images_total _ _ _ _ _ _ Hfile Hbefore Hacc).
  rewrite write_images_cons, Hbad. cbn.
  destruct Hwhy as [->|(record & -> & ->)]; done.
Qed.

End Pipeline.

(** ** The claims on the label parser *)

Section ParserClaims.
Context `{RT : Runtime}.
Implicit Types (bboxes : gmap str (list bbox)) (line : bytes).

(** C3. Every annotation line that splits into exactly six tokens
    [image_name class_id x y width height] gives one box, with
    [xmin = float(x)], [ymin = float(y)], [xmax = float(x) + float(width)],
    [ymax = float(y) + float(height)] in binary64 arithmetic and
    [label = int(class_id)]: one pass of the loop body appends it to the
    list kept for [image_name]; and wherever such a line stands in the
    label file, terminated or last, the parse of the file is the parse of
    what precedes the line, the box appended, then the parse of what
    follows, so that the index the parser returns holds the box after the
    boxes [image_name] had from the lines before. In particular, in a
    runtime that reads the five numerals of ["img1.jpg 3 10 20 5 8"] as
    Python does, the line gives the box [{xmin: 10.0, ymin: 20.0,
    xmax: 15.0, ymax: 28.0, label: 3}], alone and as the second of the
    three lines of a label file whose other lines have five and two
    tokens. *)
Theorem C3_box_of_accepted_line :
  (forall line image_name class_id x y width height fx fy fw fh l bboxes,
     parts_of line = inr [image_name; class_id; x; y; width; height] ->
     py_float x = inr fx -> py_float y = inr fy ->
     py_float width = inr fw -> py_float height = inr fh ->
     py_int class_id = inr l ->
     label_line line bboxes =
       inr (<[image_name :=
                default [] (bboxes !! image_name)
                ++ [ {| xmin := fx; ymin := fy;
                        xmax := (fx + fw)%float; ymax := (fy + fh)%float;
                        label := l |} ] ]> bboxes))
  /\ (forall head line tail image_name class_id x y width height
             fx fy fw fh l bboxes,
        head = [] \/ (exists h, head = h ++ [x0a%byte]) ->
        (exists body, line = body ++ [x0a%byte]
                      /\ Forall (fun c => Byte.to_N c <> 10) body)
        \/ (tail = [] /\ line <> []
            /\ Forall (fun c => Byte.to_N c <> 10) line) ->
        parts_of line = inr [image_name; class_id; x; y; width; height] ->
        py_float x = inr fx -> py_float y = inr fy ->
        py_float width = inr fw -> py_float height = inr fh ->
        py_int class_id = inr l ->
        let box := {| xmin := fx; ymin := fy;
                      xmax := (fx + fw)%float; ymax := (fy + fh)%float;
                      label := l |} in
        label_lines (readlines (head ++ line ++ tail)) bboxes
        = match label_lines (readlines head) bboxes with
          | inl e => inl e
          | inr mid =>
              label_lines (readlines tail)
                (<[image_name := default [] (mid !! image_name) ++ [box]]> mid)
          end
        /\ forall final,
             label_lines (readlines (head ++ line ++ tail)) bboxes = inr final ->
             exists mid later,
               label_lines (readlines head) bboxes = inr mid
               /\ final !! image_name
                  = Some (default [] (mid !! image_name) ++ box :: later))
  /\ (py_int (u "3") = inr 3%Z ->
      py_float (u "10") = inr 10%float -> py_float (u "20") = inr 20%float ->
      py_float (u "5") = inr 5%float -> py_float (u "8") = inr 8%float ->
      label_line (b "img1.jpg 3 10 20 5 8") ∅ =
        inr {[ u "img1.jpg" :=
                 [ {| xmin := 10; ymin := 20; xmax := 15; ymax := 28;
                      label := 3 |} ] ]})
  /\ (py_int (u "3") = inr 3%Z ->
      py_float (u "10") = inr 10%float -> py_float (u "20") = inr 20%float ->
      py_float (u "5") = inr 5%float -> py_float (u "8") = inr 8%float ->
      label_lines
        (readlines (b "img1.jpg 3 10 20 5" ++ [x0a%byte]
                    ++ b "img1.jpg 3 10 20 5 8" ++ [x0a%byte] ++ b "# end")) ∅ =
        inr {[ u "img1.jpg" :=
                 [ {| xmin := 10; ymin := 20; xmax := 15; ymax := 28;
                      label := 3 |} ] ]}).
Proof.
  split_and!.
  - intros * Hparts Hx Hy Hw Hh Hl.
    exact (label_line_accepted _ _ _ _ _ _ _ _ _ _ _ _ _ Hparts Hx Hy Hw Hh Hl).
  - intros * Hhead Hline Hparts Hx Hy Hw Hh Hl box.
    pose proof (label_lines_around head line tail box image_name bboxes
                  Hhead Hline
                  (fun mid => label_line_accepted _ _ _ _ _ _ _ _ _ _ _ _ mid
                                Hparts Hx Hy Hw Hh Hl)) as Hfile.
    split; [exact Hfile|].
    intros final Hfinal. rewrite Hfile in Hfinal.
    destruct (label_lines (readlines head) bboxes) as [e|mid]; [done|].
    destruct (label_lines_grows _ _ _ image_name _ Hfinal
                (lookup_insert_eq _ _ _)) as [later Hlater].
    exists mid, later. split; [done|].
    rewrite Hlater. by rewrite <- app_assoc.
  - intros Hl Hx Hy Hw Hh.
    by rewrite (label_line_accepted (b "img1.jpg 3 10 20 5 8") (u "img1.jpg")
                  (u "3") (u "10") (u "20") (u "5") (u "8") _ _ _ _ _ ∅
                  eq_refl Hx Hy Hw Hh Hl).
  - intros Hl Hx Hy Hw Hh.
    change (readlines _)
      with [ b "img1.jpg 3 10 20 5" ++ [x0a%byte];
             b "img1.jpg 3 10 20 5 8" ++ [x0a%byte]; b "# end" ].
    cbn [label_lines].
    rewrite (label_line_skipped (b "img1.jpg 3 10 20 5" ++ [x0a%byte])
               [u "img1.jpg"; u "3"; u "10"; u "20"; u "5"] ∅ eq_refl)
      by discriminate.
    cbn [mbind exn_bind].
    rewrite (label_line_accepted (b "img1.jpg 3 10 20 5 8" ++ [x0a%byte])
               (u "img1.jpg") (u "3") (u "10") (u "20") (u "5") (u "8")
               _ _ _ _ _ ∅ eq_refl Hx Hy Hw Hh Hl).
    cbn [mbind exn_bind].
    by rewrite (label_line_skipped (b "# end") [u "#"; u "end"] _ eq_refl)
      by discriminate.
Qed.

(** C4. A line whose split gives a number of tokens other than six is
    dropped without a trace: parsing it returns the index unchanged and
    raises nothing, and the parse of a label file is the parse of the file
    without that line. The five-token line ["img1.jpg 3 10 20 5"] is such a
    line. *)
Theorem C4_other_token_counts_skipped :
  (forall line parts,
     parts_of line = inr parts -> length parts <> 6%nat ->
     (forall bboxes, label_line line bboxes = inr bboxes) /\
     (forall before after bboxes,
        label_lines (before ++ line :: after) bboxes
        = label_lines (before ++ after) bboxes))
  /\ (forall bboxes, label_line (b "img1.jpg 3 10 20 5") bboxes = inr bboxes).
Proof.
  split.
  - intros line parts Hparts Hlen.
    assert (Hskip : forall bboxes, label_line line bboxes = inr bboxes)
      by (intros; by eapply label_line_skipped).
    split; [done|]. intros before after bboxes.
    rewrite !label_lines_app. destruct (label_lines before bboxes); [done|].
    cbn. by rewrite Hskip.
  - intros bboxes.
    by apply (label_line_skipped _ [u "img1.jpg"; u "3"; u "10"; u "20"; u "5"]).
Qed.

(** C8, as the code has it. The index is keyed by the first token of the
    line exactly as written, directory and all, and an image is looked up
    by the last path segment of its member name. So the box of an accepted
    line goes to the key [image_name] and to no other, stays there through
    the rest of the parse, and is what an image retrieves exactly when its
    last path segment is [image_name]; a token with a slash in it is
    retrieved by no image. *)
Theorem C8_keyed_by_token_as_written
    line image_name class_id x y width height bboxes bboxes' :
  parts_of line = inr [image_name; class_id; x; y; width; height] ->
  label_line line bboxes = inr bboxes' ->
  exists box,
    bboxes' !! image_name = Some (default [] (bboxes !! image_name) ++ [box])
    /\ (forall key, key <> image_name -> bboxes' !! key = bboxes !! key)
    /\ (forall later final,
          label_lines later bboxes' = inr final ->
          exists boxes, final !! image_name = Some boxes /\ box ∈ boxes)
    /\ (forall member_name,
          base_name member_name = image_name ->
          default [] (bboxes' !! base_name member_name)
          = default [] (bboxes !! image_name) ++ [box])
    /\ (47 ∈ image_name ->
        forall member_name, base_name member_name <> image_name).
Proof.
  intros Hparts Hline.
  destruct (label_line_parsed _ _ _ _ _ _ _ _ _ Hparts Hline)
    as (fx & fy & fw & fh & l & Hx & Hy & Hw & Hh & Hl).
  rewrite (label_line_accepted _ _ _ _ _ _ _ _ _ _ _ _ bboxes
             Hparts Hx Hy Hw Hh Hl) in Hline.
  injection Hline as <-. eexists. split_and!.
  - by rewrite lookup_insert_eq.
  - intros key Hkey. by rewrite lookup_insert_ne.
  - intros later final Hlater.
    destruct (label_lines_grows later _ _ image_name _ Hlater
                (lookup_insert_eq _ _ _)) as [more ->].
    eexists. split; [done|]. rewrite !elem_of_app, list_elem_of_singleton.
    by left; right.
  - intros member_name ->. by rewrite lookup_insert_eq.
  - intros Hslash member_name <-. by apply (base_name_no_slash member_name).
Qed.

(** C10. A six-token line with a numeral that [int()] or [float()] does
    not read is not skipped: parsing it raises, and a label file that
    holds such a line anywhere makes the line loop raise. *)
Lemma unreadable_numeral_raises line image_name class_id x y width height :
  parts_of line = inr [image_name; class_id; x; y; width; height] ->
  (exists e, py_int class_id = inl e) \/ (exists e, py_float x = inl e)
  \/ (exists e, py_float y = inl e) \/ (exists e, py_float width = inl e)
  \/ (exists e, py_float height = inl e) ->
  forall lines bboxes, line ∈ lines -> exists e, label_lines lines bboxes = inl e.
Proof.
  intros Hparts Hbad lines bboxes Hin.
  apply (label_lines_raise lines line Hin). intros bboxes0.
  by eapply label_line_unreadable.
Qed.

End ParserClaims.

(** ** The claims on the record encoder *)

Section EncoderClaims.
Context `{RT : Runtime}.

(** C5. The record that [image_to_tfrecord] returns is the serialization
    of an example whose lists [xmins], [xmaxs], [ymins], [ymaxs] and
    [labels] all have the length of [boxes], the entry at index [i] of
    each being taken from the box at index [i]: the coordinate as the
    [FloatList] keeps it, the label as it is. *)
Theorem C5_lists_aligned_with_boxes img (boxes : list bbox) record :
  image_to_tfrecord img boxes = inr record ->
  exists (example : Example) xmins xmaxs ymins ymaxs labels,
    record = SerializeToString example
    /\ example !! u "xmins" = Some (FloatList xmins)
    /\ example !! u "xmaxs" = Some (FloatList xmaxs)
    /\ example !! u "ymins" = Some (FloatList ymins)
    /\ example !! u "ymaxs" = Some (FloatList ymaxs)
    /\ example !! u "labels" = Some (Int64List labels)
    /\ (length xmins = length boxes /\ length xmaxs = length boxes
        /\ length ymins = length boxes /\ length ymaxs = length boxes
        /\ length labels = length boxes)
    /\ (forall (i : nat) box,
          boxes !! i = Some box ->
          xmins !! i = Some (float32 (xmin box))
          /\ xmaxs !! i = Some (float32 (xmax box))
          /\ ymins !! i = Some (float32 (ymin box))
          /\ ymaxs !! i = Some (float32 (ymax box))
          /\ labels !! i = Some (label box)).
Proof.
  unfold image_to_tfrecord, image_to_example, _int64_feature, _float_feature.
  destruct (Image_save_jpeg img) as [e|jpeg]; cbn; [done|].
  destruct (forallb int64 (label <$> boxes)); cbn; [|done].
  intros [= <-].
  eexists _, (float32 <$> (xmin <$> boxes)), (float32 <$> (xmax <$> boxes)),
    (float32 <$> (ymin <$> boxes)), (float32 <$> (ymax <$> boxes)),
    (label <$> boxes).
  split_and!; try reflexivity.
  - by rewrite !length_fmap.
  - by rewrite !length_fmap.
  - by rewrite !length_fmap.
  - by rewrite !length_fmap.
  - by rewrite length_fmap.
  - intros i box Hbox. rewrite !list_lookup_fmap, Hbox. done.
Qed.

(** A record is produced whenever the image encodes and the labels fit in
    64 bits. *)
Lemma image_to_tfrecord_total img (boxes : list bbox) jpeg :
  Image_save_jpeg img = inr jpeg ->
  Forall (fun box => int64 (label box) = true) boxes ->
  exists record, image_to_tfrecord img boxes = inr record.
Proof.
  intros Hsave Hfit.
  unfold image_to_tfrecord, image_to_example, _int64_feature.
  rewrite Hsave. cbn.
  assert (forallb int64 (label <$> boxes) = true) as ->.
  { apply forallb_forall. intros l [box [<- Hbox]]%in_map_iff.
    rewrite Forall_forall in Hfit. apply Hfit. by apply list_elem_of_In. }
  cbn. by eexists.
Qed.

Lemma image_to_tfrecord_unlabelled img jpeg :
  Image_save_jpeg img = inr jpeg ->
  image_to_tfrecord img [] = inr (SerializeToString (unlabelled jpeg)).
Proof.
  intros Hsave. unfold image_to_tfrecord, image_to_example. by rewrite Hsave.
Qed.

End EncoderClaims.

(** ** The claims on the archive pipeline *)

Section PipelineClaims.
Context `{RT : Runtime}.
Implicit Types (bboxes : gmap str (list bbox)) (zip_ref : list ZipInfo).
Implicit Types (w : world) (records : list bytes).

Lemma is_image_suffixes name :
  is_image name = true <->
  u ".png" `suffix_of` name \/ u ".jpg" `suffix_of` name
  \/ u ".jpeg" `suffix_of` name.
Proof.
  unfold is_image, endswith_any, endswith. cbn.
  rewrite !orb_true_iff, !bool_decide_eq_true. intuition discriminate.
Qed.

(** C1, as the code has it. When no member name ends with [location.txt],
    the script logs the error, leaves the local file as it was, makes no
    call to [upload_file], and runs to its end: the [return] of line 91
    leaves [process_images_to_tfrecord] normally, so the exit status is 0,
    not 2. *)
Theorem C1_missing_label_file_exits_0 argv w args
    source_bucket zip_key target_bucket output_prefix buffer zip_ref :
  getResolvedOptions argv
    [u "source_bucket"; u "zip_key"; u "target_bucket"; u "output_prefix"]
  = inr args ->
  args !! u "source_bucket" = Some source_bucket ->
  args !! u "zip_key" = Some zip_key ->
  args !! u "target_bucket" = Some target_bucket ->
  args !! u "output_prefix" = Some output_prefix ->
  get_object source_bucket zip_key = inr buffer ->
  ZipFile buffer = inr zip_ref ->
  Forall (fun fi => endswith (filename fi) (u "location.txt") = false) zip_ref ->
  script argv w = (Returned, logged Location_txt_not_found w)
  /\ exit_code (fst (script argv w)) = 0%Z
  /\ tfrecord_file (snd (script argv w)) = tfrecord_file w
  /\ upload_calls (snd (script argv w)) = upload_calls w.
Proof.
  intros Hargs Hsb Hzk Htb Hop Hget Hzip Hnone.
  assert (script argv w = (Returned, logged Location_txt_not_found w)) as ->.
  { unfold script, main, process_images_to_tfrecord.
    rewrite Hargs, Hsb, Hzk, Htb, Hop.
    by rewrite (try_body_not_found _ _ _ _ _ _ _ ∅ Hget Hzip
                  (scan_location_absent _ _ _ Hnone)). }
  done.
Qed.

(** C2. Once the label file is found and parsed, a run that ends normally
    has written exactly one record for each member whose name ends in
    [.png], [.jpg] or [.jpeg], compared as written, in listing order, and
    nothing for the other members; and the run does end normally when
    each such member has a record, the writer opens and takes them and the
    upload goes through. For the archive [a.jpg], [b.jpg], [location.txt] whose
    labels name only [a.jpg], the file holds two records, the second the
    serialization of the example of [b.jpg] with empty lists, when the
    writer opens. *)
Theorem C2_one_record_per_image_in_order
    source_bucket zip_key target_bucket output_prefix w buffer zip_ref bboxes :
  get_object source_bucket zip_key = inr buffer ->
  ZipFile buffer = inr zip_ref ->
  scan_location zip_ref zip_ref ∅ = inr (true, bboxes) ->
  (forall fi, fi ∈ images zip_ref <->
     fi ∈ zip_ref /\
     (u ".png" `suffix_of` filename fi \/ u ".jpg" `suffix_of` filename fi
      \/ u ".jpeg" `suffix_of` filename fi))
  /\ (forall w',
        process_images_to_tfrecord source_bucket zip_key target_bucket
          output_prefix w = (Returned, w') ->
        exists records,
          tfrecord_file w' = Some records /\
          Forall2 (fun fi record => record_of zip_ref bboxes fi = inr record)
            (images zip_ref) records)
  /\ (forall records,
        TFRecordWriter (tfrecord_file w) = inr tt ->
        Forall2 (fun fi record => record_of zip_ref bboxes fi = inr record)
          (images zip_ref) records ->
        accepted [] records ->
        upload_file records target_bucket (output_prefix ++ u "/data.tfrecord")
        = inr tt ->
        process_images_to_tfrecord source_bucket zip_key target_bucket
          output_prefix w
        = (Returned,
           with_upload
             (records, target_bucket, output_prefix ++ u "/data.tfrecord")
             (with_file records w)))
  /\ (forall data_a data_b labels record_a img_b jpeg_b,
        zip_ref = [ {| filename := u "a.jpg"; data := data_a |};
                    {| filename := u "b.jpg"; data := data_b |};
                    {| filename := u "location.txt"; data := labels |} ] ->
        bboxes !! u "b.jpg" = None ->
        TFRecordWriter (tfrecord_file w) = inr tt ->
        record_of zip_ref bboxes {| filename := u "a.jpg"; data := data_a |}
        = inr record_a ->
        Image_open data_b = inr img_b ->
        Image_save_jpeg img_b = inr jpeg_b ->
        accepted [] [record_a; SerializeToString (unlabelled jpeg_b)] ->
        tfrecord_file
          (snd (process_images_to_tfrecord source_bucket zip_key target_bucket
                  output_prefix w))
        = Some [record_a; SerializeToString (unlabelled jpeg_b)]).
Proof.
  intros Hget Hzip Hscan.
  pose proof (process_found _ _ target_bucket output_prefix w _ _ _
                Hget Hzip Hscan) as Hrun.
  split_and!.
  - intros fi. unfold images.
    rewrite list_elem_of_In, filter_In, <- list_elem_of_In, is_image_suffixes.
    done.
  - intros w' Hreturned.
    destruct (TFRecordWriter (tfrecord_file w)) as [e|[]] eqn:Hwriter.
    { by rewrite (process_writer_fails _ _ target_bucket output_prefix _ _ _ _
                    e Hget Hzip Hscan Hwriter) in Hreturned. }
    rewrite (Hrun eq_refl) in Hreturned.
    destruct (write_images zip_ref zip_ref bboxes (with_file [] w))
      as [[e|[]] w1] eqn:Hloop; [done|].
    destruct (write_images_spec _ _ _ (with_file [] w) [] _ _ eq_refl Hloop)
      as (records & -> & _ & Hrecords).
    exists records. split; [|done].
    rewrite with_file_twice, upload_with_file in Hreturned.
    destruct (upload_file _ _ _) as [e|[]]; [done|]. by injection Hreturned as <-.
  - intros records Hwriter Hrecords Hacc Hup. rewrite (Hrun Hwriter).
    rewrite (write_images_total _ _ _ (with_file [] w) [] records eq_refl
               Hrecords Hacc).
    cbn [app]. rewrite with_file_twice, upload_with_file. by rewrite Hup.
  - intros data_a data_b labels record_a img_b jpeg_b -> Hb Hwriter Ha Hopen
      Hsave Hacc.
    rewrite (Hrun Hwriter).
    rewrite (write_images_total _ _ _ (with_file [] w) []
               [record_a; SerializeToString (unlabelled jpeg_b)] eq_refl).
    + cbn [app]. rewrite with_file_twice, upload_with_file.
      by destruct (upload_file _ _ _) as [e|[]].
    + change (images _) with [ {| filename := u "a.jpg"; data := data_a |};
                               {| filename := u "b.jpg"; data := data_b |} ].
      repeat constructor; [done|].
      unfold record_of. change (zip_open _ _) with (@inr exn _ data_b).
      cbn. rewrite Hopen. cbn.
      change (base_name _) with (u "b.jpg"). rewrite Hb. cbn.
      by apply image_to_tfrecord_unlabelled.
    + done.
Qed.

(** C6. An image member whose last path segment is not a key of the index
    still gets its record, the serialization of the example with the
    image and five empty lists; nothing is raised on account of the
    missing boxes, and the image loop appends that record and goes on. *)
Theorem C6_image_without_boxes zip_ref bboxes file_info file img jpeg :
  bboxes !! base_name (filename file_info) = None ->
  zip_open zip_ref (filename file_info) = inr file ->
  Image_open file = inr img ->
  Image_save_jpeg img = inr jpeg ->
  record_of zip_ref bboxes file_info = inr (SerializeToString (unlabelled jpeg))
  /\ (unlabelled jpeg !! u "xmins" = Some (FloatList [])
      /\ unlabelled jpeg !! u "xmaxs" = Some (FloatList [])
      /\ unlabelled jpeg !! u "ymins" = Some (FloatList [])
      /\ unlabelled jpeg !! u "ymaxs" = Some (FloatList [])
      /\ unlabelled jpeg !! u "labels" = Some (Int64List []))
  /\ (forall rest w written,
        is_image (filename file_info) = true ->
        tfrecord_file w = Some written ->
        writer_write written (SerializeToString (unlabelled jpeg)) = inr tt ->
        write_images zip_ref (file_info :: rest) bboxes w
        = write_images zip_ref rest bboxes
            (with_file (written ++ [SerializeToString (unlabelled jpeg)]) w)).
Proof.
  intros Hkey Hopen Himg Hsave.
  assert (Hrecord : record_of zip_ref bboxes file_info
                    = inr (SerializeToString (unlabelled jpeg))).
  { unfold record_of. rewrite Hopen. cbn. rewrite Himg. cbn. rewrite Hkey. cbn.
    by apply image_to_tfrecord_unlabelled. }
  split_and!; try reflexivity; [done|].
  intros rest w written Hfi Hfile Hwrite.
  rewrite write_images_cons, Hfi, Hrecord, Hfile.
  change (default [] (Some written)) with written. by rewrite Hwrite.
Qed.

End PipelineClaims.

(** ** The claims on failures *)

Section RunClaims.
Context `{RT : Runtime}.
Implicit Types (bboxes : gmap str (list bbox)) (zip_ref : list ZipInfo).
Implicit Types (w : world) (records : list bytes).

(** A member that does not decode, or does not encode, has no record. *)
Lemma record_of_failure zip_ref bboxes file_info e :
  (exists file, zip_open zip_ref (filename file_info) = inr file
                /\ Image_open file = inl e)
  \/ (exists file img,
        zip_open zip_ref (filename file_info) = inr file
        /\ Image_open file = inr img
        /\ image_to_tfrecord img
             (default [] (bboxes !! base_name (filename file_info))) = inl e) ->
  record_of zip_ref bboxes file_info = inl e.
Proof.
  unfold record_of.
  intros [(file & -> & Hopen)|(file & img & -> & Hopen & Henc)]; cbn;
    rewrite Hopen; cbn; done.
Qed.

(** C7. Whatever exception leaves the body of the [try] ends the process
    with [sys.exit(2)] after one line of log. In particular, once the
    labels are parsed: an image member that does not decode, does not
    encode, or whose record the writer refuses stops the loop there, so
    the members after it get no record and [upload_file] is not called;
    an upload that fails ends the run the same way; and so does a writer
    that cannot open its file, before any member is read. *)
Theorem C7_any_exception_aborts_the_run
    source_bucket zip_key target_bucket output_prefix w :
  (forall e w',
     try_body source_bucket zip_key target_bucket output_prefix w = (inl e, w') ->
     process_images_to_tfrecord source_bucket zip_key target_bucket
       output_prefix w
     = (SysExit 2, logged (Error_processing_images e) w'))
  /\ (forall buffer zip_ref bboxes,
        get_object source_bucket zip_key = inr buffer ->
        ZipFile buffer = inr zip_ref ->
        scan_location zip_ref zip_ref ∅ = inr (true, bboxes) ->
        (forall e,
           TFRecordWriter (tfrecord_file w) = inl e ->
           process_images_to_tfrecord source_bucket zip_key target_bucket
             output_prefix w
           = (SysExit 2, logged (Error_processing_images e) w))
        /\ (forall before bad after records e,
           TFRecordWriter (tfrecord_file w) = inr tt ->
           zip_ref = before ++ bad :: after ->
           is_image (filename bad) = true ->
           Forall2 (fun fi record => record_of zip_ref bboxes fi = inr record)
             (images before) records ->
           accepted [] records ->
           (exists file, zip_open zip_ref (filename bad) = inr file
                         /\ Image_open file = inl e)
           \/ (exists file img,
                 zip_open zip_ref (filename bad) = inr file
                 /\ Image_open file = inr img
                 /\ image_to_tfrecord img
                      (default [] (bboxes !! base_name (filename bad))) = inl e)
           \/ (exists record, record_of zip_ref bboxes bad = inr record
                              /\ writer_write records record = inl e) ->
           process_images_to_tfrecord source_bucket zip_key target_bucket
             output_prefix w
           = (SysExit 2,
              logged (Error_processing_images e) (with_file records w)))
        /\ (forall records e,
              TFRecordWriter (tfrecord_file w) = inr tt ->
              Forall2 (fun fi record => record_of zip_ref bboxes fi = inr record)
                (images zip_ref) records ->
              accepted [] records ->
              upload_file records target_bucket
                (output_prefix ++ u "/data.tfrecord") = inl e ->
              process_images_to_tfrecord source_bucket zip_key target_bucket
                output_prefix w
              = (SysExit 2,
                 logged (Error_processing_images e)
                   (with_upload
                      (records, target_bucket,
                       output_prefix ++ u "/data.tfrecord")
                      (with_file records w))))).
Proof.
  split.
  - intros e w' Hbody. unfold process_images_to_tfrecord. by rewrite Hbody.
  - intros buffer zip_ref bboxes Hget Hzip Hscan.
    pose proof (process_found _ _ target_bucket output_prefix w _ _ _
                  Hget Hzip Hscan) as Hrun.
    split_and!.
    + intros e Hwriter.
      exact (process_writer_fails _ _ _ _ _ _ _ _ e Hget Hzip Hscan Hwriter).
    + intros before bad after records e Hwriter -> Hbad Hbefore Hacc Hwhy.
      rewrite (Hrun Hwriter).
      rewrite (write_images_stopped _ before bad after bboxes (with_file [] w)
                 [] records e eq_refl Hbad Hbefore Hacc); [done|].
      destruct Hwhy as [Hdec|[Henc|Hwrite]].
      * left. apply record_of_failure. by left.
      * left. apply record_of_failure. by right.
      * by right.
    + intros records e Hwriter Hrecords Hacc Hup. rewrite (Hrun Hwriter).
      rewrite (write_images_total _ _ _ (with_file [] w) [] records eq_refl
                 Hrecords Hacc).
      cbn [app]. rewrite with_file_twice, upload_with_file. by rewrite Hup.
Qed.

(** C10. A six-token line whose class id [int()] does not read, or one of
    whose four numbers [float()] does not read, raises where a line of
    another length is skipped; the exception leaves the line loop
    wherever the line stands in the label file, and the run ends with
    [sys.exit(2)], the local file untouched and nothing uploaded. *)
Theorem C10_unreadable_numeral_aborts_the_run
    line image_name class_id x y width height :
  parts_of line = inr [image_name; class_id; x; y; width; height] ->
  (exists e, py_int class_id = inl e) \/ (exists e, py_float x = inl e)
  \/ (exists e, py_float y = inl e) \/ (exists e, py_float width = inl e)
  \/ (exists e, py_float height = inl e) ->
  (forall bboxes, exists e, label_line line bboxes = inl e)
  /\ (forall lines bboxes,
        line ∈ lines -> exists e, label_lines lines bboxes = inl e)
  /\ (forall source_bucket zip_key target_bucket output_prefix w buffer
             before location after label_file,
        get_object source_bucket zip_key = inr buffer ->
        ZipFile buffer = inr (before ++ location :: after) ->
        Forall (fun fi => endswith (filename fi) (u "location.txt") = false)
          before ->
        endswith (filename location) (u "location.txt") = true ->
        zip_open (before ++ location :: after) (filename location)
        = inr label_file ->
        line ∈ readlines label_file ->
        exists e,
          process_images_to_tfrecord source_bucket zip_key target_bucket
            output_prefix w
          = (SysExit 2, logged (Error_processing_images e) w)).
Proof.
  intros Hparts Hbad. split_and!.
  - intros bboxes. by eapply label_line_unreadable.
  - intros lines bboxes Hin. by eapply unreadable_numeral_raises.
  - intros source_bucket zip_key target_bucket output_prefix w buffer
      before location after label_file Hget Hzip Hbefore Hloc Hopen Hin.
    destruct (unreadable_numeral_raises _ _ _ _ _ _ _ Hparts Hbad
                (readlines label_file) ∅ Hin) as [e He].
    exists e. unfold process_images_to_tfrecord.
    rewrite (try_body_scan_raises _ _ _ _ _ _ _ e Hget Hzip); [done|].
    by rewrite (scan_location_first _ _ _ _ _ Hbefore Hloc), Hopen, He.
Qed.

(** Two lists of records of the same members are the same list. *)
Lemma records_unique zip_ref bboxes (members : list ZipInfo) records1 records2 :
  Forall2 (fun fi record => record_of zip_ref bboxes fi = inr record)
    members records1 ->
  Forall2 (fun fi record => record_of zip_ref bboxes fi = inr record)
    members records2 ->
  records1 = records2.
Proof.
  intros H1. revert records2.
  induction H1 as [|fi record1 members records1 Hrec1 _ IH]; intros records2 H2.
  - by inversion H2.
  - inversion H2 as [|? record2 ? records2' Hrec2 Hrest]; subst.
    f_equal; [congruence | by apply IH].
Qed.

(** A run calls [upload_file] at most once, and when it does, with the
    records of the image members of the archive it fetched, which are
    then also what the local file holds. *)
Lemma process_uploads source_bucket zip_key target_bucket output_prefix w buffer :
  get_object source_bucket zip_key = inr buffer ->
  let w' := snd (process_images_to_tfrecord source_bucket zip_key
                   target_bucket output_prefix w) in
  upload_calls w' = upload_calls w
  \/ exists zip_ref bboxes records,
       ZipFile buffer = inr zip_ref
       /\ scan_location zip_ref zip_ref ∅ = inr (true, bboxes)
       /\ Forall2 (fun fi record => record_of zip_ref bboxes fi = inr record)
            (images zip_ref) records
       /\ upload_calls w'
          = upload_calls w
            ++ [(records, target_bucket, output_prefix ++ u "/data.tfrecord")]
       /\ tfrecord_file w' = Some records.
Proof.
  intros Hget.
  destruct (ZipFile buffer) as [e|zip_ref] eqn:Hzip.
  { left. unfold process_images_to_tfrecord, try_body, mbind, M_bind, pure.
    by rewrite Hget, Hzip. }
  destruct (scan_location zip_ref zip_ref ∅) as [e|[[] bboxes]] eqn:Hscan.
  - left. unfold process_images_to_tfrecord.
    by rewrite (try_body_scan_raises _ _ _ _ _ _ _ e Hget Hzip Hscan).
  - destruct (TFRecordWriter (tfrecord_file w)) as [e|[]] eqn:Hwriter.
    { left. cbn zeta.
      by rewrite (process_writer_fails _ _ _ _ _ _ _ _ e Hget Hzip Hscan
                    Hwriter). }
    cbn zeta. rewrite (process_found _ _ _ _ _ _ _ _ Hget Hzip Hscan Hwriter).
    destruct (write_images zip_ref zip_ref bboxes (with_file [] w))
      as [[e|[]] w1] eqn:Hloop;
      destruct (write_images_spec _ _ _ (with_file [] w) [] _ _ eq_refl Hloop)
        as (records & -> & _ & Hrecords); [by left|].
    right. exists zip_ref, bboxes, records.
    rewrite with_file_twice, upload_with_file.
    by destruct (upload_file _ _ _) as [e|[]].
  - left. unfold process_images_to_tfrecord.
    by rewrite (try_body_not_found _ _ _ _ _ _ _ bboxes Hget Hzip Hscan).
Qed.

End RunClaims.

(** ** Two runs

    Two runs of the script are two processes, each with its interpreter
    and libraries: two runtimes. What the second computes is compared
    with what the first computes under the hypothesis that they read
    numerals, round to [float32] and encode JPEG alike; nothing is
    assumed of the two serializers. *)

Section TwoRuns.
Context (RT1 RT2 : Runtime).
Implicit Types (bboxes : gmap str (list bbox)) (zip_ref : list ZipInfo).

(** A record is the serialization of the example of its member. *)
Lemma record_of_example `{RT : Runtime} zip_ref bboxes file_info :
  record_of zip_ref bboxes file_info
  = (example ← example_of zip_ref bboxes file_info;
     mret (SerializeToString example)).
Proof.
  unfold record_of, example_of, image_to_tfrecord.
  destruct (zip_open _ _) as [e|file]; cbn; [done|].
  by destruct (Image_open file) as [e|img].
Qed.

Lemma records_of_examples `{RT : Runtime} zip_ref bboxes
    (members : list ZipInfo) records :
  Forall2 (fun fi record => record_of zip_ref bboxes fi = inr record)
    members records ->
  exists examples,
    Forall2 (fun fi example => example_of zip_ref bboxes fi = inr example)
      members examples
    /\ records = SerializeToString <$> examples.
Proof.
  induction 1 as [|fi record members records Hrecord _ (examples & IH & ->)].
  - by exists [].
  - rewrite record_of_example in Hrecord.
    destruct (example_of zip_ref bboxes fi) as [e|example] eqn:Hexample;
      [done|].
    injection Hrecord as <-. exists (example :: examples).
    split; [by constructor | done].
Qed.

Lemma examples_unique `{RT : Runtime} zip_ref bboxes (members : list ZipInfo)
    examples1 examples2 :
  Forall2 (fun fi example => example_of zip_ref bboxes fi = inr example)
    members examples1 ->
  Forall2 (fun fi example => example_of zip_ref bboxes fi = inr example)
    members examples2 ->
  examples1 = examples2.
Proof.
  intros H1. revert examples2.
  induction H1 as [|fi example1 members examples1 Hex1 _ IH]; intros examples2 H2.
  - by inversion H2.
  - inversion H2 as [|? example2 ? examples2' Hex2 Hrest]; subst.
    f_equal; [congruence | by apply IH].
Qed.

Hypothesis same_int : forall s, @py_int RT1 s = @py_int RT2 s.
Hypothesis same_float : forall s, @py_float RT1 s = @py_float RT2 s.
Hypothesis same_float32 : forall f, @float32 RT1 f = @float32 RT2 f.
Hypothesis same_jpeg : forall file, @jpeg_of RT1 file = @jpeg_of RT2 file.

Lemma label_line_agree line bboxes :
  @label_line RT1 line bboxes = @label_line RT2 line bboxes.
Proof.
  unfold label_line. destruct (parts_of line) as [e|parts]; cbn; [done|].
  do 6 (destruct parts as [|? parts]; [done|]).
  destruct parts; [|done].
  by rewrite !same_float, same_int.
Qed.

Lemma label_lines_agree lines bboxes :
  @label_lines RT1 lines bboxes = @label_lines RT2 lines bboxes.
Proof.
  revert bboxes. induction lines as [|line lines IH]; intros bboxes; [done|].
  cbn. rewrite label_line_agree.
  destruct (@label_line RT2 line bboxes) as [e|bboxes']; cbn; [done|]. apply IH.
Qed.

Lemma scan_location_agree zip_ref infolist bboxes :
  @scan_location RT1 zip_ref infolist bboxes
  = @scan_location RT2 zip_ref infolist bboxes.
Proof.
  induction infolist as [|file_info infolist IH]; cbn; [done|].
  destruct (endswith _ _); [|done].
  destruct (zip_open _ _) as [e|label_file]; cbn; [done|].
  by rewrite label_lines_agree.
Qed.

Lemma example_of_agree zip_ref bboxes file_info :
  @example_of RT1 zip_ref bboxes file_info
  = @example_of RT2 zip_ref bboxes file_info.
Proof.
  unfold example_of, image_to_example.
  destruct (zip_open _ _) as [e|file]; cbn; [done|].
  pose proof (same_jpeg file) as Hjpeg. unfold jpeg_of in Hjpeg.
  assert (Hlists : forall value,
            @_float_feature RT1 value = @_float_feature RT2 value).
  { intros value. unfold _float_feature. f_equal.
    apply list_fmap_ext. intros _ f _. apply same_float32. }
  destruct (@Image_open RT1 file) as [e1|img1],
           (@Image_open RT2 file) as [e2|img2]; cbn in Hjpeg |- *.
  - congruence.
  - by rewrite <- Hjpeg.
  - by rewrite Hjpeg.
  - rewrite Hjpeg. destruct (Image_save_jpeg img2) as [e|jpeg]; cbn; [done|].
    destruct (_int64_feature _) as [e|labels]; cbn; [done|].
    by rewrite !Hlists.
Qed.

End TwoRuns.

(** C9. Two runs that fetch the same archive bytes, in processes that
    read numerals, list the archive, round to [float32] and encode JPEG
    alike, whatever their arguments and whatever the local file, the
    earlier uploads and the log were before, and that both get to upload,
    have built the same examples, one for each image member in listing
    order; each uploads the serializations of these examples by its own
    serializer and leaves them in the local file. The two outputs are the
    same bytes when the two serializers agree on these examples, which
    nothing in the script secures. *)
Theorem C9_same_archive_same_examples (RT1 RT2 : Runtime)
    source_bucket1 zip_key1 target_bucket1 output_prefix1 w1
    source_bucket2 zip_key2 target_bucket2 output_prefix2 w2
    buffer body1 bucket1 key1 body2 bucket2 key2 :
  (forall s, @py_int RT1 s = @py_int RT2 s) ->
  (forall s, @py_float RT1 s = @py_float RT2 s) ->
  (forall f, @float32 RT1 f = @float32 RT2 f) ->
  (forall file, @jpeg_of RT1 file = @jpeg_of RT2 file) ->
  @ZipFile RT1 buffer = @ZipFile RT2 buffer ->
  @get_object RT1 source_bucket1 zip_key1 = inr buffer ->
  @get_object RT2 source_bucket2 zip_key2 = inr buffer ->
  let w1' := snd (@process_images_to_tfrecord RT1 source_bucket1 zip_key1
                    target_bucket1 output_prefix1 w1) in
  let w2' := snd (@process_images_to_tfrecord RT2 source_bucket2 zip_key2
                    target_bucket2 output_prefix2 w2) in
  upload_calls w1' = upload_calls w1 ++ [(body1, bucket1, key1)] ->
  upload_calls w2' = upload_calls w2 ++ [(body2, bucket2, key2)] ->
  exists zip_ref bboxes examples,
    @ZipFile RT1 buffer = inr zip_ref
    /\ @scan_location RT1 zip_ref zip_ref ∅ = inr (true, bboxes)
    /\ Forall2 (fun fi example =>
                  @example_of RT1 zip_ref bboxes fi = inr example)
         (images zip_ref) examples
    /\ body1 = @SerializeToString RT1 <$> examples
    /\ body2 = @SerializeToString RT2 <$> examples
    /\ tfrecord_file w1' = Some body1
    /\ tfrecord_file w2' = Some body2
    /\ ((forall example,
           example ∈ examples ->
           @SerializeToString RT1 example = @SerializeToString RT2 example) ->
        body1 = body2).
Proof.
  intros Hint Hfloat Hfloat32 Hjpeg Hsame Hget1 Hget2 w1' w2' Hup1 Hup2.
  assert (Hgrown : forall (calls : list (list bytes * str * str)) call,
            calls ++ [call] <> calls).
  { intros calls call Heq. apply (f_equal length) in Heq.
    rewrite length_app in Heq. cbn in Heq. lia. }
  destruct (@process_uploads RT1 _ _ target_bucket1 output_prefix1 w1 _ Hget1)
    as [Hnone|(zip_ref & bboxes & records1 & Hzip & Hscan & Hrec1 & Hcalls1 & Hfile1)].
  { fold w1' in Hnone. rewrite Hnone in Hup1. by destruct (Hgrown _ _ (eq_sym Hup1)). }
  destruct (@process_uploads RT2 _ _ target_bucket2 output_prefix2 w2 _ Hget2)
    as [Hnone|(zip_ref' & bboxes' & records2 & Hzip' & Hscan' & Hrec2 & Hcalls2 & Hfile2)].
  { fold w2' in Hnone. rewrite Hnone in Hup2. by destruct (Hgrown _ _ (eq_sym Hup2)). }
  fold w1' in Hcalls1, Hfile1. fold w2' in Hcalls2, Hfile2.
  rewrite <- Hsame, Hzip in Hzip'. injection Hzip' as <-.
  rewrite <- (scan_location_agree RT1 RT2 Hint Hfloat), Hscan in Hscan'.
  injection Hscan' as <-.
  destruct (records_of_examples _ _ _ _ Hrec1) as (examples & Hex1 & ->).
  destruct (records_of_examples _ _ _ _ Hrec2) as (examples2 & Hex2 & ->).
  assert (examples2 = examples) as ->.
  { apply (examples_unique (RT := RT1) zip_ref bboxes (images zip_ref));
      [|done].
    eapply Forall2_impl; [exact Hex2|]. intros fi example.
    by rewrite (example_of_agree RT1 RT2 Hfloat32 Hjpeg). }
  rewrite Hup1 in Hcalls1. apply app_inj_tail in Hcalls1 as [_ [= -> _ _]].
  rewrite Hup2 in Hcalls2. apply app_inj_tail in Hcalls2 as [_ [= -> _ _]].
  exists zip_ref, bboxes, examples. split_and!; [done..|].
  intros Hserial. apply list_fmap_ext. intros i example Hi.
  apply Hserial. by eapply list_elem_of_lookup_2.
Qed.

(** * The claims at work on the sample archives *)

Section Witnesses.
Import Sample.

Lemma C1_witness :
  @script (rt unlabelled_archive) argv fresh
  = (Returned, logged Location_txt_not_found fresh)
  /\ exit_code (fst (@script (rt unlabelled_archive) argv fresh)) = 0%Z
  /\ tfrecord_file (snd (@script (rt unlabelled_archive) argv fresh)) = None
  /\ upload_calls (snd (@script (rt unlabelled_archive) argv fresh)) = [].
Proof.
  eapply (C1_missing_label_file_exits_0 (RT := rt unlabelled_archive));
    [reflexivity..|].
  repeat constructor.
Defined.

Lemma C3_witness :
  @label_lines (rt two_images) (readlines label_file_three) ∅
  = inr {[ u "img1.jpg" := [box_a] ]}
  /\ @label_lines (rt two_images)
       (readlines (label_file_a ++ label_line_a' ++ b "# end")) ∅
     = inr index_aa
  /\ @label_line (rt two_images) (b "img1.jpg 3 10 20 5 8") ∅
     = inr {[ u "img1.jpg" := [box_a] ]}
  /\ @label_line (rt two_images) (b "a.jpg 7 0.5 1.25 2 2" ++ newline) index_a
     = inr (<[ u "a.jpg" := [box_a] ++ [box_a'] ]> index_a).
Proof.
  destruct (C3_box_of_accepted_line (RT := rt two_images))
    as (Hline & Hfile & Hexample & Hexample_file).
  split_and!.
  - apply Hexample_file; reflexivity.
  - destruct (Hfile label_file_a label_line_a' (b "# end")
                (u "a.jpg") (u "7") (u "0.5") (u "1.25") (u "2") (u "2")
                0.5%float 1.25%float 2%float 2%float 7%Z ∅) as [-> _];
      [right; by exists (b "a.jpg 3 10 20 5 8")
      |left; exists (b "a.jpg 7 0.5 1.25 2 2"); split;
         [reflexivity | repeat constructor; discriminate]
      |reflexivity..|].
    reflexivity.
  - apply Hexample; reflexivity.
  - apply (Hline (b "a.jpg 7 0.5 1.25 2 2" ++ newline)
             (u "a.jpg") (u "7") (u "0.5") (u "1.25") (u "2") (u "2")
             0.5%float 1.25%float 2%float 2%float 7%Z index_a);
      reflexivity.
Defined.

Lemma C4_witness :
  @label_line (rt two_images) (b "img1.jpg 3 10 20 5") index_a = inr index_a
  /\ @label_lines (rt two_images)
       ([label_file_a] ++ b "img1.jpg 3 10 20 5" :: [label_file_a]) ∅
     = @label_lines (rt two_images) ([label_file_a] ++ [label_file_a]) ∅.
Proof.
  pose proof (proj1 (C4_other_token_counts_skipped (RT := rt two_images))
                (b "img1.jpg 3 10 20 5")
                [u "img1.jpg"; u "3"; u "10"; u "20"; u "5"]
                eq_refl ltac:(discriminate)) as [Hline Hlines].
  split; [apply Hline | apply Hlines].
Defined.

Lemma C2_witness :
  tfrecord_file
    (snd (@process_images_to_tfrecord (rt two_images)
            (u "raw") (u "data.zip") (u "out") (u "tf") used))
  = Some [record_a; @SerializeToString (rt two_images) (unlabelled (b "BB"))]
  /\ @process_images_to_tfrecord (rt two_images)
       (u "raw") (u "data.zip") (u "out") (u "tf") fresh
     = (Returned,
        with_upload ([record_a; record_b], u "out", u "tf" ++ u "/data.tfrecord")
          (with_file [record_a; record_b] fresh)).
Proof.
  split.
  - destruct (C2_one_record_per_image_in_order (RT := rt two_images)
                (u "raw") (u "data.zip") (u "out") (u "tf") used
                two_images two_images_listing index_a eq_refl eq_refl eq_refl)
      as (_ & _ & _ & Hexample).
    apply (Hexample (b "AAA") (b "BB") label_file_a record_a (b "BB") (b "BB"));
      try reflexivity.
    repeat split.
  - destruct (C2_one_record_per_image_in_order (RT := rt two_images)
                (u "raw") (u "data.zip") (u "out") (u "tf") fresh
                two_images two_images_listing index_a eq_refl eq_refl eq_refl)
      as (_ & _ & Htotal & _).
    apply (Htotal [record_a; record_b]);
      [reflexivity | repeat constructor | repeat split | reflexivity].
Defined.

Lemma C5_witness :
  exists (example : Example) xmins labels,
    b "AAA" ++ [x03; x07]%byte = @SerializeToString (rt labelled) example
    /\ example !! u "xmins" = Some (FloatList xmins)
    /\ example !! u "labels" = Some (Int64List labels)
    /\ length xmins = 2%nat /\ length labels = 2%nat
    /\ xmins !! 1%nat = Some 0.5%float /\ labels !! 1%nat = Some 7%Z.
Proof.
  destruct (C5_lists_aligned_with_boxes (RT := rt labelled)
              (b "AAA") [box_a; box_a'] (b "AAA" ++ [x03; x07]%byte) eq_refl)
    as (example & xmins & xmaxs & ymins & ymaxs & labels
        & Hrecord & Hxmins & _ & _ & _ & Hlabels & Hlen & Hat).
  exists example, xmins, labels.
  destruct Hlen as (Hx & _ & _ & _ & Hl).
  destruct (Hat 1%nat box_a' eq_refl) as (Hx1 & _ & _ & _ & Hl1).
  repeat split; assumption.
Defined.

Lemma C6_witness :
  @record_of (rt two_images) two_images_listing index_a (member "b.jpg" (b "BB"))
  = inr (@SerializeToString (rt two_images) (unlabelled (b "BB")))
  /\ @write_images (rt two_images) two_images_listing
       [member "b.jpg" (b "BB"); member "location.txt" label_file_a]
       index_a (with_file [record_a] fresh)
     = @write_images (rt two_images) two_images_listing
         [member "location.txt" label_file_a] index_a
         (with_file ([record_a]
                     ++ [@SerializeToString (rt two_images) (unlabelled (b "BB"))])
            (with_file [record_a] fresh)).
Proof.
  destruct (C6_image_without_boxes (RT := rt two_images) two_images_listing
              index_a (member "b.jpg" (b "BB")) (b "BB") (b "BB") (b "BB")
              eq_refl eq_refl eq_refl eq_refl) as (Hrecord & _ & Hstep).
  split; [exact Hrecord|].
  apply Hstep; reflexivity.
Defined.

Lemma C7_witness :
  @process_images_to_tfrecord (rt one_bad_image)
    (u "raw") (u "data.zip") (u "out") (u "tf") used
  = (SysExit 2,
     logged (Error_processing_images (LibraryError "UnidentifiedImageError"))
       (with_file [record_a] used))
  /\ @process_images_to_tfrecord (rt two_images)
       (u "raw") (u "data.zip") (u "raw") (u "tf") used
     = (SysExit 2,
        logged (Error_processing_images (LibraryError "AccessDenied"))
          (with_upload
             ([record_a; record_b], u "raw", u "tf" ++ u "/data.tfrecord")
             (with_file [record_a; record_b] used)))
  /\ @process_images_to_tfrecord (rt_read_only two_images)
       (u "raw") (u "data.zip") (u "out") (u "tf") used
     = (SysExit 2,
        logged (Error_processing_images (LibraryError "PermissionDeniedError"))
          used).
Proof.
  split_and!.
  - destruct (proj2 (C7_any_exception_aborts_the_run (RT := rt one_bad_image)
                       (u "raw") (u "data.zip") (u "out") (u "tf") used)
                one_bad_image one_bad_image_listing index_a
                eq_refl eq_refl eq_refl) as (_ & Hbad & _).
    apply (Hbad [member "location.txt" label_file_a; member "a.jpg" (b "AAA")]
             (member "bad.png" []) [member "c.jpg" (b "CC")] [record_a]);
      [reflexivity | reflexivity | reflexivity | repeat constructor
      | repeat split |].
    left. exists []. split; reflexivity.
  - destruct (proj2 (C7_any_exception_aborts_the_run (RT := rt two_images)
                       (u "raw") (u "data.zip") (u "raw") (u "tf") used)
                two_images two_images_listing index_a
                eq_refl eq_refl eq_refl) as (_ & _ & Hupload).
    apply (Hupload [record_a; record_b]);
      [reflexivity | repeat constructor | repeat split | reflexivity].
  - destruct (proj2 (C7_any_exception_aborts_the_run
                       (RT := rt_read_only two_images)
                       (u "raw") (u "data.zip") (u "out") (u "tf") used)
                two_images two_images_listing index_a
                eq_refl eq_refl eq_refl) as (Hwriter & _ & _).
    apply Hwriter. reflexivity.
Defined.

Lemma C8_witness :
  exists box,
    index_a !! u "a.jpg"
    = Some (default [] ((∅ : gmap str (list bbox)) !! u "a.jpg") ++ [box])
    /\ default [] (index_a !! base_name (u "images/a.jpg"))
       = default [] ((∅ : gmap str (list bbox)) !! u "a.jpg") ++ [box].
Proof.
  assert (Hline : @label_line (rt two_images) label_file_a ∅ = inr index_a)
    by (vm_compute; reflexivity).
  destruct (C8_keyed_by_token_as_written (RT := rt two_images) label_file_a
              (u "a.jpg") (u "3") (u "10") (u "20") (u "5") (u "8") ∅ index_a
              eq_refl Hline) as (box & Hkey & _ & _ & Hget & _).
  exists box. split; [exact Hkey | exact (Hget (u "images/a.jpg") eq_refl)].
Defined.

Lemma C9_witness :
  exists examples,
    [record_a; record_b] = @SerializeToString (rt two_images) <$> examples
    /\ [record_a_labels_first; record_b]
       = @SerializeToString (rt_labels_first two_images) <$> examples
    /\ tfrecord_file
         (snd (@process_images_to_tfrecord (rt two_images)
                 (u "raw") (u "data.zip") (u "out") (u "tf") fresh))
       = Some [record_a; record_b]
    /\ tfrecord_file
         (snd (@process_images_to_tfrecord (rt_labels_first two_images)
                 (u "raw") (u "data.zip") (u "backup") (u "v2") used))
       = Some [record_a_labels_first; record_b].
Proof.
  destruct (C9_same_archive_same_examples
              (rt two_images) (rt_labels_first two_images)
              (u "raw") (u "data.zip") (u "out") (u "tf") fresh
              (u "raw") (u "data.zip") (u "backup") (u "v2") used
              two_images
              [record_a; record_b] (u "out") (u "tf/data.tfrecord")
              [record_a_labels_first; record_b] (u "backup")
              (u "v2/data.tfrecord")
              ltac:(reflexivity) ltac:(reflexivity) ltac:(reflexivity)
              ltac:(reflexivity) eq_refl eq_refl eq_refl eq_refl eq_refl)
    as (zip_ref & bboxes & examples & _ & _ & _ & H1 & H2 & Hfile1 & Hfile2 & _).
  exists examples. by split_and!.
Defined.

Lemma C10_witness :
  exists e,
    @process_images_to_tfrecord (rt bad_class_id)
      (u "raw") (u "data.zip") (u "out") (u "tf") used
    = (SysExit 2, logged (Error_processing_images e) used).
Proof.
  destruct (C10_unreadable_numeral_aborts_the_run (RT := rt bad_class_id)
              (b "a.jpg car 10 20 5 8" ++ newline)
              (u "a.jpg") (u "car") (u "10") (u "20") (u "5") (u "8") eq_refl
              (or_introl (ex_intro _ ValueError eq_refl)))
    as (_ & _ & Hrun).
  apply (Hrun (u "raw") (u "data.zip") (u "out") (u "tf") used bad_class_id
           [] (member "location.txt" label_file_car)
           [member "a.jpg" (b "AAA")] label_file_car);
    [reflexivity | reflexivity | constructor | reflexivity | reflexivity |].
  apply list_elem_of_In. right. left. reflexivity.
Defined.

(** C8, as the claim states it, fails on a label file that names its image
    with a directory: the line ["sub/a.jpg 3 10 20 5 8"] is accepted, its
    key keeps the directory, and the member [sub/a.jpg], looked up as
    [a.jpg], retrieves no box. *)
Lemma C8_counterexample :
  ~ (forall line image_name class_id x y width height bboxes',
       parts_of line = inr [image_name; class_id; x; y; width; height] ->
       @label_line (rt nested_names) line ∅ = inr bboxes' ->
       forall key, is_Some (bboxes' !! key) -> 47 ∉ key)
  /\ ~ (forall line image_name class_id x y width height bboxes',
          parts_of line = inr [image_name; class_id; x; y; width; height] ->
          @label_line (rt nested_names) line ∅ = inr bboxes' ->
          forall member_name,
            base_name member_name = base_name image_name ->
            default [] (bboxes' !! base_name member_name) <> [])
  /\ tfrecord_file
       (snd (@process_images_to_tfrecord (rt nested_names)
               (u "raw") (u "data.zip") (u "out") (u "tf") fresh))
     = Some [@SerializeToString (rt nested_names) (unlabelled (b "AAA"))].
Proof.
  split_and!.
  - intros Hkeys.
    apply (Hkeys (b "sub/a.jpg 3 10 20 5 8") (u "sub/a.jpg") (u "3") (u "10")
             (u "20") (u "5") (u "8") {[ u "sub/a.jpg" := [box_a] ]}
             eq_refl eq_refl (u "sub/a.jpg")).
    + by eexists.
    + apply list_elem_of_In. vm_compute. tauto.
  - intros Hget.
    by apply (Hget (b "sub/a.jpg 3 10 20 5 8") (u "sub/a.jpg") (u "3") (u "10")
                (u "20") (u "5") (u "8") {[ u "sub/a.jpg" := [box_a] ]}
                eq_refl eq_refl (u "sub/a.jpg") eq_refl).
  - reflexivity.
Qed.

(** C9, as the claim states it, fails between two processes that lay the
    features of an example out in different orders: on the archive of
    C2's example, everything else alike, the two output files differ in
    their first record. *)
Lemma C9_counterexample :
  ~ (forall (RT1 RT2 : Runtime) source_bucket zip_key target_bucket
            output_prefix w buffer body1 body2,
       (forall s, @py_int RT1 s = @py_int RT2 s) ->
       (forall s, @py_float RT1 s = @py_float RT2 s) ->
       (forall f, @float32 RT1 f = @float32 RT2 f) ->
       (forall file, @jpeg_of RT1 file = @jpeg_of RT2 file) ->
       @ZipFile RT1 buffer = @ZipFile RT2 buffer ->
       @get_object RT1 source_bucket zip_key = inr buffer ->
       @get_object RT2 source_bucket zip_key = inr buffer ->
       tfrecord_file
         (snd (@process_images_to_tfrecord RT1 source_bucket zip_key
                 target_bucket output_prefix w)) = Some body1 ->
       tfrecord_file
         (snd (@process_images_to_tfrecord RT2 source_bucket zip_key
                 target_bucket output_prefix w)) = Some body2 ->
       body1 = body2)
  /\ @process_images_to_tfrecord (rt two_images)
       (u "raw") (u "data.zip") (u "out") (u "tf") fresh
     = (Returned,
        with_upload ([record_a; record_b], u "out", u "tf/data.tfrecord")
          (with_file [record_a; record_b] fresh))
  /\ @process_images_to_tfrecord (rt_labels_first two_images)
       (u "raw") (u "data.zip") (u "out") (u "tf") fresh
     = (Returned,
        with_upload
          ([record_a_labels_first; record_b], u "out", u "tf/data.tfrecord")
          (with_file [record_a_labels_first; record_b] fresh))
  /\ record_a <> record_a_labels_first.
Proof.
  split_and!.
  - intros Hsame.
    by pose proof (Hsame (rt two_images) (rt_labels_first two_images)
                     (u "raw") (u "data.zip") (u "out") (u "tf") fresh
                     two_images [record_a; record_b]
                     [record_a_labels_first; record_b]
                     ltac:(reflexivity) ltac:(reflexivity) ltac:(reflexivity)
                     ltac:(reflexivity) eq_refl eq_refl eq_refl eq_refl eq_refl).
  - reflexivity.
  - reflexivity.
  - done.
Qed.

End Witnesses.

(** * Further properties of the script *)

(** ** Lines and tokens *)

(** X1. Iterating the label file loses nothing and adds nothing. The
    file is, in one way, a sequence of runs of bytes other than [\n],
    each followed by one [\n], and a last run with no [\n] after it,
    which may be empty; its lines are these runs with their [\n], in
    order, and after them the last run if it is not empty. So only the
    last line may lack its [\n], no line is empty, and the lines put end
    to end are the bytes of the file. *)
Theorem X1_lines_partition_the_label_file raw :
  concat (readlines raw) = raw
  /\ exists bodies last,
       Forall (Forall (fun c => Byte.to_N c <> 10)) bodies
       /\ Forall (fun c => Byte.to_N c <> 10) last
       /\ raw = concat ((fun body => body ++ [x0a%byte]) <$> bodies) ++ last
       /\ readlines raw
          = ((fun body => body ++ [x0a%byte]) <$> bodies)
            ++ match last with [] => [] | _ => [last] end.
Proof.
  unfold readlines. split; [apply readlines_from_concat|].
  exact (readlines_from_decompose [] raw (List.Forall_nil _)).
Qed.

(** The tokens of [s.split()]: none is empty, none holds whitespace. *)
Lemma split_ws_from_tokens cur s :
  Forall (fun c => isspace c = false) cur ->
  Forall (fun token => token <> [] /\ Forall (fun c => isspace c = false) token)
    (split_ws_from cur s).
Proof.
  revert cur. induction s as [|c s IH]; intros cur Hcur; cbn.
  - destruct cur; [constructor|]. constructor; [by split|constructor].
  - destruct (isspace c) eqn:Hc.
    + destruct cur as [|c0 cur]; [by apply IH|].
      constructor; [done|]. by apply IH.
    + apply IH. apply Forall_app. split; [done|]. by constructor.
Qed.






(** ** Path segments *)

Lemma join_split_sep sep s : join_sep sep (split_sep sep s) = s.
Proof.
  induction s as [|c s IH]; cbn; [done|].
  pose proof (split_sep_nonempty sep s) as Hne.
  destruct (c =? sep) eqn:Hc.
  - apply N.eqb_eq in Hc as ->.
    destruct (split_sep sep s) as [|seg segs]; [done|]. cbn in *. by rewrite IH.
  - destruct (split_sep sep s) as [|seg segs]; [done|].
    destruct segs as [|seg' segs]; cbn in *; by rewrite <- IH.
Qed.

Lemma join_sep_snoc sep front segment :
  front <> [] ->
  join_sep sep (front ++ [segment]) = join_sep sep front ++ sep :: segment.
Proof.
  induction front as [|seg front IH]; [done|]. intros _.
  destruct front as [|seg' front]; [done|].
  change (join_sep sep ((seg :: seg' :: front) ++ [segment]))
    with (seg ++ sep :: join_sep sep ((seg' :: front) ++ [segment])).
  rewrite IH by done.
  change (join_sep sep (seg :: seg' :: front))
    with (seg ++ sep :: join_sep sep (seg' :: front)).
  by rewrite <- app_assoc.
Qed.

(** A name is its last segment, after nothing or after a part that ends
    with a slash. *)
Lemma base_name_decompose name :
  exists dir,
    name = dir ++ base_name name /\ (dir = [] \/ exists dir', dir = dir' ++ [47]).
Proof.
  unfold base_name, last_item.
  pose proof (join_split_sep 47 name) as Hjoin.
  destruct (exists_last (split_sep_nonempty 47 name)) as (front & seg & Heq).
  rewrite Heq in *. rewrite last_last.
  destruct front as [|seg0 front].
  - exists []. split; [by rewrite <- Hjoin | by left].
  - rewrite join_sep_snoc in Hjoin by done.
    exists (join_sep 47 (seg0 :: front) ++ [47]).
    split; [by rewrite <- app_assoc | right; by eexists].
Qed.

Lemma base_name_suffix name : base_name name `suffix_of` name.
Proof. destruct (base_name_decompose name) as (dir & Hname & _). by exists dir. Qed.

(** A suffix with no slash in it lies within the last segment. *)
Lemma suffix_in_base_name name suffix :
  47 ∉ suffix -> suffix `suffix_of` name -> suffix `suffix_of` base_name name.
Proof.
  intros Hfree [k Hk].
  destruct (base_name_decompose name) as (dir & Hname & Hdir).
  rewrite Hk in Hname at 1.
  apply app_eq_app in Hname as [l [[-> Hl]|[-> Hl]]].
  - by exists l.
  - destruct Hdir as [Hdir|[dir' Hdir]].
    + apply app_eq_nil in Hdir as [_ ->]. cbn in Hl. subst. by exists [].
    + destruct l as [|c l _] using rev_ind.
      * cbn in Hl. subst. by exists [].
      * rewrite app_assoc in Hdir. apply app_inj_tail in Hdir as [_ ->].
        exfalso. apply Hfree. rewrite Hl, <- app_assoc.
        apply elem_of_app. right. by left.
Qed.

Lemma endswith_base_name name suffix :
  47 ∉ suffix -> endswith name suffix = endswith (base_name name) suffix.
Proof.
  intros Hfree. unfold endswith. apply bool_decide_ext. split.
  - by apply suffix_in_base_name.
  - intros H. etrans; [exact H | apply base_name_suffix].
Qed.

(** X12. The directory of a member plays no part in the lookup of its
    boxes: for a file name with no slash in it, the key looked up for
    [dir/name] is [name], whatever [dir] is (slashes included), and the
    key looked up for a bare [name] is [name]. Two images of one file name
    in two directories thus get the same boxes. *)
Theorem X12_directory_is_ignored_in_lookup dir name :
  47 ∉ name -> base_name (dir ++ 47 :: name) = name /\ base_name name = name.
Proof.
  intros Hfree. split; [|by apply base_name_plain].
  assert (Hsuf : name `suffix_of` base_name (dir ++ 47 :: name)).
  { apply suffix_in_base_name; [done|]. exists (dir ++ [47]).
    by rewrite <- app_assoc. }
  destruct Hsuf as [k Hk].
  destruct (base_name_decompose (dir ++ 47 :: name)) as (dir0 & Hname & _).
  pose proof (base_name_no_slash (dir ++ 47 :: name)) as Hbase.
  rewrite Hk in Hname, Hbase. rewrite Hk.
  destruct k as [|c k _] using rev_ind; [done|]. exfalso.
  rewrite !app_assoc in Hname.
  change (dir ++ 47 :: name) with (dir ++ [47] ++ name) in Hname.
  rewrite app_assoc in Hname.
  apply app_inv_tail in Hname. apply app_inj_tail in Hname as [_ <-].
  apply Hbase. rewrite elem_of_app, elem_of_app. left; right. by left.
Qed.

(** ** Which member is what *)

(** X13. A member taken as the label file is never taken as an image: a
    name that ends with [location.txt] ends with none of [.png], [.jpg],
    [.jpeg], so the label file gets no record. *)
Theorem X13_label_file_is_not_an_image name :
  endswith name (u "location.txt") = true -> is_image name = false.
Proof.
  unfold is_image, endswith_any, endswith. cbn.
  intros Hloc%bool_decide_eq_true.
  assert (Hno : forall suffix,
            ~ suffix `suffix_of` u "location.txt" ->
            (length suffix <= length (u "location.txt"))%nat ->
            bool_decide (suffix `suffix_of` name) = false).
  { intros suffix Hnot Hlen. apply bool_decide_eq_false. intros Hsuf.
    destruct (suffix_weak_total _ _ _ Hsuf Hloc) as [H|H]; [done|].
    apply Hnot. destruct H as [k Hk].
    destruct k as [|c k]; [rewrite Hk; by exists []|].
    rewrite Hk, length_app in Hlen. cbn in Hlen. lia. }
  rewrite !Hno; [done|..];
    first [ by vm_compute; lia
          | intros H; apply (bool_decide_eq_true_2 _) in H; by vm_compute in H ].
Qed.

Lemma is_image_base_name name : is_image name = is_image (base_name name).
Proof.
  unfold is_image, endswith_any. cbn.
  rewrite <- !endswith_base_name; [done|..];
    intros H; apply list_elem_of_In in H; vm_compute in H; intuition discriminate.
Qed.

Lemma label_file_base_name name :
  endswith name (u "location.txt")
  = endswith (base_name name) (u "location.txt").
Proof.
  apply endswith_base_name.
  intros H. apply list_elem_of_In in H. vm_compute in H. intuition discriminate.
Qed.

(** X11. Whether a member is taken as the label file (line 71) or as an
    image (line 95) depends on the last segment of its path only: the
    tests on the whole name give what they would give on the file name
    that line 100 looks up, at any depth of nesting. *)
Theorem X11_member_kind_depends_on_last_segment name :
  endswith name (u "location.txt")
  = endswith (base_name name) (u "location.txt")
  /\ is_image name = is_image (base_name name).
Proof. split; [apply label_file_base_name | apply is_image_base_name]. Qed.

(** ** More on the label parser *)

Section MoreParser.
Context `{RT : Runtime}.
Implicit Types (bboxes : gmap str (list bbox)) (line : bytes).

Lemma six_tokens_parts line parts :
  parts_of line = inr parts -> six_tokens line = Nat.eqb (length parts) 6.
Proof.
  unfold parts_of, six_tokens. destruct (decode_utf8 line); cbn; [done|].
  by intros [= <-].
Qed.

Lemma six_tokens_undecoded line e :
  parts_of line = inl e -> six_tokens line = false.
Proof.
  unfold parts_of, six_tokens. by destruct (decode_utf8 line).
Qed.

Lemma parts_of_tokens line parts :
  parts_of line = inr parts ->
  Forall (fun token => token <> [] /\ Forall (fun c => isspace c = false) token)
    parts.
Proof.
  unfold parts_of. destruct (decode_utf8 line) as [e|text]; cbn; [done|].
  intros [= <-]. by apply split_ws_from_tokens.
Qed.

(** What a line that parses did to the index. *)
Lemma label_line_cases line bboxes bboxes' :
  label_line line bboxes = inr bboxes' ->
  (six_tokens line = false /\ bboxes' = bboxes)
  \/ (six_tokens line = true /\
      exists image_name class_id x y width height fx fy fw fh l,
        parts_of line = inr [image_name; class_id; x; y; width; height]
        /\ py_float x = inr fx /\ py_float y = inr fy
        /\ py_float width = inr fw /\ py_float height = inr fh
        /\ py_int class_id = inr l
        /\ bboxes' =
             <[image_name :=
                 default [] (bboxes !! image_name)
                 ++ [ {| xmin := fx; ymin := fy;
                         xmax := (fx + fw)%float; ymax := (fy + fh)%float;
                         label := l |} ] ]> bboxes).
Proof.
  intros Hline.
  destruct (parts_of line) as [e|parts] eqn:Hparts.
  { unfold label_line in Hline. by rewrite Hparts in Hline. }
  pose proof (six_tokens_parts _ _ Hparts) as Hsix.
  destruct (Nat.eqb_spec (length parts) 6) as [Hlen|Hlen].
  - right. split; [done|].
    do 6 (destruct parts as [|? parts]; [done|]). destruct parts; [|done].
    destruct (label_line_parsed _ _ _ _ _ _ _ _ _ Hparts Hline)
      as (fx & fy & fw & fh & lbl & Hx & Hy & Hw & Hh & Hl).
    rewrite (label_line_accepted _ _ _ _ _ _ _ _ _ _ _ _ bboxes
               Hparts Hx Hy Hw Hh Hl) in Hline.
    injection Hline as <-. by repeat eexists.
  - left. split; [done|].
    rewrite (label_line_skipped _ _ _ Hparts Hlen) in Hline. by injection Hline.
Qed.

(** Whether a line raises, and what, does not depend on the index. *)
Lemma label_line_status line bboxes1 bboxes2 :
  match label_line line bboxes1, label_line line bboxes2 with
  | inl e1, inl e2 => e1 = e2
  | inr _, inr _ => True
  | _, _ => False
  end.
Proof.
  unfold label_line. destruct (parts_of line) as [e|parts]; cbn; [done|].
  do 6 (destruct parts as [|? parts]; [done|]). destruct parts; [|done].
  repeat match goal with
         | |- context [py_float ?t] => destruct (py_float t); cbn; [done|]
         | |- context [py_int ?t] => destruct (py_int t); cbn; [done|]
         end.
  done.
Qed.

Lemma well_keyed_line line bboxes bboxes' :
  well_keyed bboxes -> label_line line bboxes = inr bboxes' -> well_keyed bboxes'.
Proof.
  intros Hok Hline.
  destruct (label_line_cases _ _ _ Hline)
    as [[_ ->]|(_ & name & c & x & y & wd & h & fx & fy & fw & fh & lbl
                & Hparts & _ & _ & _ & _ & _ & ->)]; [done|].
  intros key boxes. destruct (decide (name = key)) as [<-|Hne].
  - rewrite lookup_insert_eq. intros [= <-].
    apply parts_of_tokens in Hparts. inversion Hparts as [|? ? [Hne Hfree] _].
    split_and!; [done..|]. by destruct (default [] (bboxes !! name)).
  - rewrite lookup_insert_ne by done. apply Hok.
Qed.

Lemma well_keyed_lines lines bboxes bboxes' :
  well_keyed bboxes -> label_lines lines bboxes = inr bboxes' -> well_keyed bboxes'.
Proof.
  revert bboxes. induction lines as [|line lines IH]; intros bboxes Hok; cbn.
  - by intros [= <-].
  - destruct (label_line line bboxes) as [e|bboxes1] eqn:Hline; cbn; [done|].
    apply IH. by eapply well_keyed_line.
Qed.

Lemma box_count_insert bboxes key box :
  box_count (<[key := default [] (bboxes !! key) ++ [box]]> bboxes)
  = S (box_count bboxes).
Proof.
  unfold box_count.
  assert (Hcomm : forall (z1 z2 : list bbox) (y : nat),
            (length z1 + (length z2 + y) = length z2 + (length z1 + y))%nat)
    by (intros; lia).
  destruct (bboxes !! key) as [boxes|] eqn:Hkey; cbn.
  - rewrite <- (insert_delete_eq bboxes).
    rewrite map_fold_insert_L; [|intros; apply Hcomm|apply lookup_delete_eq].
    rewrite (map_fold_delete_L _ _ key boxes bboxes); [|intros; apply Hcomm|done].
    rewrite length_app. cbn. lia.
  - rewrite map_fold_insert_L; [done|intros; apply Hcomm|done].
Qed.

End MoreParser.

Section ParserExtras.
Context `{RT : Runtime}.
Implicit Types (bboxes : gmap str (list bbox)) (line : bytes).


(** X3. The keys of the index built from a label file are tokens: none
    is empty, none holds whitespace, and each has at least one box. Hence
    an image whose file name holds a whitespace character (a space, a
    no-break space, ...) or is empty is found under no key: its record
    has empty lists whatever the label file says. *)
Theorem X3_index_keys_are_tokens lines bboxes :
  label_lines lines ∅ = inr bboxes ->
  (forall key boxes,
     bboxes !! key = Some boxes ->
     key <> [] /\ Forall (fun c => isspace c = false) key /\ boxes <> [])
  /\ (forall member_name,
        base_name member_name = []
        \/ (exists c, c ∈ base_name member_name /\ isspace c = true) ->
        bboxes !! base_name member_name = None)
  /\ (forall zip_ref file_info file img jpeg,
        base_name (filename file_info) = []
        \/ (exists c, c ∈ base_name (filename file_info) /\ isspace c = true) ->
        zip_open zip_ref (filename file_info) = inr file ->
        Image_open file = inr img ->
        Image_save_jpeg img = inr jpeg ->
        record_of zip_ref bboxes file_info
        = inr (SerializeToString (unlabelled jpeg))).
Proof.
  intros Hlines.
  assert (Hok : well_keyed bboxes).
  { eapply well_keyed_lines; [|exact Hlines]. intros key boxes.
    by rewrite lookup_empty. }
  assert (Hnone : forall member_name,
            base_name member_name = []
            \/ (exists c, c ∈ base_name member_name /\ isspace c = true) ->
            bboxes !! base_name member_name = None).
  { intros member_name Hname.
    destruct (bboxes !! base_name member_name) as [boxes|] eqn:Hkey; [|done].
    destruct (Hok _ _ Hkey) as (Hne & Hfree & _).
    destruct Hname as [Hempty|(c & Hc & Hspace)]; [done|].
    rewrite Forall_forall in Hfree. specialize (Hfree c Hc). congruence. }
  split_and!; [exact Hok | exact Hnone |].
  intros zip_ref file_info file img jpeg Hname Hopen Himg Hsave.
  unfold record_of. rewrite Hopen. cbn. rewrite Himg. cbn.
  rewrite (Hnone _ Hname). cbn. by apply image_to_tfrecord_unlabelled.
Qed.

(** X4. A label file that parses adds to the index exactly one box for
    each of its lines that decodes into six tokens, and none for the
    others: the boxes of the index, counted over all keys, grow by the
    number of such lines. *)
Theorem X4_one_box_per_six_token_line lines bboxes bboxes' :
  label_lines lines bboxes = inr bboxes' ->
  box_count bboxes' = (box_count bboxes + length (List.filter six_tokens lines))%nat.
Proof.
  revert bboxes. induction lines as [|line lines IH]; intros bboxes; cbn.
  - intros [= <-]. lia.
  - destruct (label_line line bboxes) as [e|bboxes1] eqn:Hline; cbn; [done|].
    intros Hrest. rewrite (IH _ Hrest).
    destruct (label_line_cases _ _ _ Hline)
      as [[-> ->]|(-> & name & c & x & y & wd & h & fx & fy & fw & fh & lbl
                   & _ & _ & _ & _ & _ & _ & ->)]; [done|].
    rewrite box_count_insert. cbn. lia.
Qed.

(** X6. Whether a line raises, and what, does not depend on the lines
    read before it. So a label file parses if and only if each of its
    lines parses on its own, and the exception of a file that does not is
    the one of its first line that raises. *)
Theorem X6_label_file_parses_iff_each_line_does lines bboxes :
  ((exists bboxes', label_lines lines bboxes = inr bboxes')
   <-> Forall (fun line => exists b, label_line line ∅ = inr b) lines)
  /\ (forall e,
        label_lines lines bboxes = inl e <->
        exists before line after,
          lines = before ++ line :: after
          /\ Forall (fun line => exists b, label_line line ∅ = inr b) before
          /\ label_line line ∅ = inl e).
Proof.
  revert bboxes. induction lines as [|line lines IH]; intros bboxes.
  - split; [split; [constructor|by eexists]|].
    intros e. split; [done|]. intros (before & l & after & Heq & _).
    by destruct before.
  - cbn. pose proof (label_line_status line bboxes ∅) as Hstatus.
    destruct (label_line line bboxes) as [e0|bboxes1] eqn:Hline;
      destruct (label_line line ∅) as [e1|b1] eqn:Hline0; try done; cbn.
    + subst e1. split.
      * split; [by intros [? ?]|]. intros Hall. inversion Hall as [|? ? [b Hb] _].
        congruence.
      * intros e. split.
        -- intros [= <-]. exists [], line, lines. by repeat split.
        -- intros (before & l & after & Heq & Hbefore & Hl).
           destruct before as [|l0 before]; simplify_eq/=.
           ++ congruence.
           ++ inversion Hbefore as [|? ? [b Hb] _]. congruence.
    + destruct (IH bboxes1) as [Hok Herr]. split.
      * rewrite Hok. split; [intros H; constructor; [by eexists|done]|].
        by inversion 1.
      * intros e. rewrite Herr. split.
        -- intros (before & l & after & -> & Hbefore & Hl).
           exists (line :: before), l, after. split_and!; [done| |done].
           constructor; [by eexists|done].
        -- intros (before & l & after & Heq & Hbefore & Hl).
           destruct before as [|l0 before]; simplify_eq/=.
           ++ congruence.
           ++ exists before, l, after. split_and!; [done| |done].
              by inversion Hbefore.
Qed.

(** X5. The boxes of an image are kept in the order of their lines: of
    two six-token lines for one image name, the box of the earlier line
    stands before the box of the later one in the list of that name,
    whatever lines stand before, between and after them. *)
Theorem X5_boxes_keep_line_order
    lines1 line1 lines2 line2 lines3 bboxes final
    image_name class_id1 x1 y1 width1 height1 class_id2 x2 y2 width2 height2 :
  parts_of line1 = inr [image_name; class_id1; x1; y1; width1; height1] ->
  parts_of line2 = inr [image_name; class_id2; x2; y2; width2; height2] ->
  label_lines (lines1 ++ line1 :: lines2 ++ line2 :: lines3) bboxes = inr final ->
  exists box1 box2 before between after,
    final !! image_name = Some (before ++ box1 :: between ++ box2 :: after)
    /\ py_int class_id1 = inr (label box1) /\ py_float x1 = inr (xmin box1)
    /\ py_float y1 = inr (ymin box1)
    /\ py_int class_id2 = inr (label box2) /\ py_float x2 = inr (xmin box2)
    /\ py_float y2 = inr (ymin box2).
Proof.
  intros Hparts1 Hparts2. rewrite label_lines_app.
  destruct (label_lines lines1 bboxes) as [e|b0]; [done|]. cbn.
  destruct (label_line line1 b0) as [e|b1] eqn:Hline1; cbn; [done|].
  rewrite label_lines_app.
  destruct (label_lines lines2 b1) as [e|b2] eqn:Hlines2; [done|]. cbn.
  destruct (label_line line2 b2) as [e|b3] eqn:Hline2; cbn; [done|].
  intros Hlines3.
  destruct (label_line_parsed _ _ _ _ _ _ _ _ _ Hparts1 Hline1)
    as (fx1 & fy1 & fw1 & fh1 & l1 & Hx1 & Hy1 & Hw1 & Hh1 & Hl1).
  destruct (label_line_parsed _ _ _ _ _ _ _ _ _ Hparts2 Hline2)
    as (fx2 & fy2 & fw2 & fh2 & l2 & Hx2 & Hy2 & Hw2 & Hh2 & Hl2).
  rewrite (label_line_accepted _ _ _ _ _ _ _ _ _ _ _ _ b0
             Hparts1 Hx1 Hy1 Hw1 Hh1 Hl1) in Hline1.
  rewrite (label_line_accepted _ _ _ _ _ _ _ _ _ _ _ _ b2
             Hparts2 Hx2 Hy2 Hw2 Hh2 Hl2) in Hline2.
  injection Hline1 as <-. injection Hline2 as <-.
  destruct (label_lines_grows _ _ _ image_name _ Hlines2 (lookup_insert_eq _ _ _))
    as [between Hbetween].
  rewrite Hbetween in Hlines3. cbn in Hlines3.
  destruct (label_lines_grows _ _ _ image_name _ Hlines3 (lookup_insert_eq _ _ _))
    as [after Hafter].
  eexists _, _, (default [] (b0 !! image_name)), between, after.
  split.
  { rewrite Hafter, <- !app_assoc. reflexivity. }
  by repeat split.
Qed.

(** The two directions of the case of one numeral. *)
Ltac forward_case :=
  intros ?;
  repeat first [ left; congruence | right; split; [eexists; reflexivity|] ];
  congruence.
Ltac backward_case :=
  let H := fresh in
  intros H; repeat (destruct H as [H|[[? ?] H]]; [congruence|]); congruence.

(** For a six-token line: the exception is that of the first numeral
    that does not read. *)
Lemma six_token_line_raises line bboxes
    image_name class_id x y width height e :
  parts_of line = inr [image_name; class_id; x; y; width; height] ->
  label_line line bboxes = inl e <->
  py_float x = inl e
  \/ (exists fx, py_float x = inr fx)
     /\ (py_float y = inl e
         \/ (exists fy, py_float y = inr fy)
            /\ (py_float width = inl e
                \/ (exists fw, py_float width = inr fw)
                   /\ (py_float height = inl e
                       \/ (exists fh, py_float height = inr fh)
                          /\ py_int class_id = inl e))).
Proof.
  intros Hparts. unfold label_line. rewrite Hparts. cbn.
  assert (Hback : forall (P Q : Prop), (P -> Q) -> (Q -> P) -> P <-> Q) by tauto.
  destruct (py_float x) as [ex|fx]; cbn;
    [apply Hback; [forward_case | backward_case]|].
  destruct (py_float y) as [ey|fy]; cbn;
    [apply Hback; [forward_case | backward_case]|].
  destruct (py_float width) as [ew|fw]; cbn;
    [apply Hback; [forward_case | backward_case]|].
  destruct (py_float height) as [eh|fh]; cbn;
    [apply Hback; [forward_case | backward_case]|].
  destruct (py_int class_id) as [el|l]; cbn; unfold mret, exn_ret;
    (apply Hback; [forward_case | backward_case]).
Qed.

(** X18. What a line raises, and when. A line raises exactly in these
    cases: its bytes are not UTF-8, and it raises the decoding error
    whatever its number of tokens; or it has six tokens and a numeral
    does not read, and it raises the exception of the first that does
    not, in the order [float(x)], [float(y)], [float(width)],
    [float(height)], [int(class_id)] in which lines 80-86 evaluate them. *)
Theorem X18_which_line_raises_what line bboxes e :
  label_line line bboxes = inl e <->
  decode_utf8 line = inl e
  \/ exists image_name class_id x y width height,
       parts_of line = inr [image_name; class_id; x; y; width; height]
       /\ (py_float x = inl e
           \/ (exists fx, py_float x = inr fx)
              /\ (py_float y = inl e
                  \/ (exists fy, py_float y = inr fy)
                     /\ (py_float width = inl e
                         \/ (exists fw, py_float width = inr fw)
                            /\ (py_float height = inl e
                                \/ (exists fh, py_float height = inr fh)
                                   /\ py_int class_id = inl e)))).
Proof.
  split.
  - intros Hline.
    destruct (parts_of line) as [e0|parts] eqn:Hparts.
    { left. unfold label_line in Hline. rewrite Hparts in Hline.
      unfold parts_of in Hparts. destruct (decode_utf8 line); [|done].
      cbn in *. congruence. }
    right.
    destruct (Nat.eq_dec (length parts) 6%nat) as [Hlen|Hlen].
    + do 6 (destruct parts as [|? parts]; [done|]). destruct parts; [|done].
      do 6 eexists. split; [done|]. by eapply six_token_line_raises.
    + by rewrite (label_line_skipped _ _ _ Hparts Hlen) in Hline.
  - intros [Hdec|(image_name & class_id & x & y & width & height & Hparts & Hwhy)].
    + unfold label_line, parts_of. by rewrite Hdec.
    + by eapply six_token_line_raises.
Qed.

End ParserExtras.

Lemma forallb_false {A} (f : A -> bool) (l : list A) :
  forallb f l = false -> exists x, x ∈ l /\ f x = false.
Proof.
  induction l as [|x l IH]; cbn; [done|].
  destruct (f x) eqn:Hx; cbn.
  - intros (y & Hy & Hfy)%IH. exists y. split; [by right|done].
  - intros _. exists x. split; [by left|done].
Qed.

Section EncoderExtras.
Context `{RT : Runtime}.

(** X7. [image_to_tfrecord] raises in two cases only: the image does not
    save as JPEG, and then with the exception of the save, or, the image
    saved, a label lies outside the signed 64-bit range, and then with
    [ValueError]. No coordinate, whatever its value, makes it raise. *)
Theorem X7_encoder_raises_for_image_or_label_range img (boxes : list bbox) e :
  image_to_tfrecord img boxes = inl e <->
  Image_save_jpeg img = inl e
  \/ ((exists jpeg, Image_save_jpeg img = inr jpeg) /\ e = ValueError
      /\ exists box, box ∈ boxes /\ ~ (- 2 ^ 63 <= label box < 2 ^ 63)%Z).
Proof.
  unfold image_to_tfrecord, image_to_example, _int64_feature.
  destruct (Image_save_jpeg img) as [e0|jpeg]; cbn.
  { split; [intros [= ->]; by left|]. intros [[= ->]|[[? ?] _]]; done. }
  destruct (forallb int64 (label <$> boxes)) eqn:Hfit; cbn.
  - split; [done|]. intros [?|(_ & _ & box & Hbox & Hout)]; [done|].
    exfalso. apply Hout. rewrite forallb_forall in Hfit.
    specialize (Hfit (label box)). unfold int64 in Hfit.
    assert (Hin : In (label box) (label <$> boxes)).
    { apply in_map. by apply list_elem_of_In. }
    apply Hfit in Hin. lia.
  - split; [|intros [?|(_ & -> & _)]; done].
    intros [= <-]. right. split; [by eexists|]. split; [done|].
    apply forallb_false in Hfit as (l & Hin & Hl).
    apply list_elem_of_fmap in Hin as (box & -> & Hbox).
    exists box. split; [done|]. unfold int64 in Hl. lia.
Qed.

(** X8. Every record is the serialization of an example with exactly
    the six features [image], [xmins], [xmaxs], [ymins], [ymaxs] and
    [labels], whose [image] is a list of one element: the bytes of the
    image saved as JPEG, not the bytes of the archive member. *)
Theorem X8_record_carries_six_features img (boxes : list bbox) record :
  image_to_tfrecord img boxes = inr record ->
  exists jpeg (example : Example),
    Image_save_jpeg img = inr jpeg
    /\ record = SerializeToString example
    /\ example !! u "image" = Some (BytesList [jpeg])
    /\ dom example
       = {[ u "image"; u "xmins"; u "xmaxs"; u "ymins"; u "ymaxs"; u "labels" ]}.
Proof.
  unfold image_to_tfrecord, image_to_example, _int64_feature.
  destruct (Image_save_jpeg img) as [e|jpeg]; cbn; [done|].
  destruct (forallb int64 (label <$> boxes)); cbn; [|done].
  intros [= <-]. eexists jpeg, _. split_and!; [done..|].
  rewrite !dom_insert_L, dom_empty_L. set_solver.
Qed.

End EncoderExtras.

Lemma find_app_last {A} (f : A -> bool) (l1 l2 : list A) :
  List.find f (l1 ++ l2)
  = match List.find f l1 with Some x => Some x | None => List.find f l2 end.
Proof.
  induction l1 as [|x l1 IH]; cbn; [done|]. by destruct (f x).
Qed.

Lemma find_absent {A} (f : A -> bool) (l : list A) :
  Forall (fun x => f x = false) l -> List.find f l = None.
Proof. induction 1 as [|x l Hx _ IH]; cbn; [done|]. by rewrite Hx. Qed.

(** A name opens the member listed last under it. *)
Lemma zip_open_last earlier zi later :
  Forall (fun other => filename other <> filename zi) later ->
  zip_open (earlier ++ zi :: later) (filename zi) = inr (data zi).
Proof.
  intros Hlater. unfold zip_open, getinfo.
  rewrite rev_app_distr. cbn. rewrite <- app_assoc, find_app_last.
  assert (List.find (fun z => bool_decide (filename z = filename zi)) (rev later)
          = None) as ->.
  { apply find_absent, Forall_rev. eapply Forall_impl; [exact Hlater|].
    intros z Hz. by apply bool_decide_eq_false. }
  cbn. by rewrite bool_decide_eq_true_2.
Qed.

(** Of the members listed under a name, one is the last. *)
Lemma last_named (zip_ref : list ZipInfo) name :
  (exists zi, zi ∈ zip_ref /\ filename zi = name) ->
  exists earlier chosen later,
    zip_ref = earlier ++ chosen :: later
    /\ filename chosen = name
    /\ Forall (fun other => filename other <> name) later.
Proof.
  induction zip_ref as [|zi zip_ref IH]; intros (x & Hin & Hname).
  - by apply not_elem_of_nil in Hin.
  - destruct (decide (Forall (fun other => filename other <> name) zip_ref))
      as [Hnone|Hsome].
    + apply elem_of_cons in Hin as [->|Hin].
      * by exists [], zi, zip_ref.
      * rewrite Forall_forall in Hnone. by destruct (Hnone x Hin).
    + apply not_Forall_Exists in Hsome; [|apply _].
      apply Exists_exists in Hsome as (x' & Hin' & Hname').
      destruct (IH (ex_intro _ x' (conj Hin' (dec_stable Hname'))))
        as (earlier & chosen & later & -> & Hchosen & Hlater).
      by exists (zi :: earlier), chosen, later.
Qed.

Section PipelineExtras.
Context `{RT : Runtime}.
Implicit Types (bboxes : gmap str (list bbox)) (zip_ref : list ZipInfo).
Implicit Types (w : world) (records : list bytes).

(** X9. One label file is read. The scan stops at the first member whose
    name ends with [location.txt] and parses what this name opens, which
    is the content of the member listed last under that name: the member
    itself when no later member shares its name. The members before it,
    and the label files under other names, add no box. *)
Theorem X9_only_the_first_label_file_is_read
    zip_ref before location after bboxes :
  zip_ref = before ++ location :: after ->
  Forall (fun fi => endswith (filename fi) (u "location.txt") = false) before ->
  endswith (filename location) (u "location.txt") = true ->
  (exists earlier chosen later,
     zip_ref = earlier ++ chosen :: later
     /\ filename chosen = filename location
     /\ Forall (fun other => filename other <> filename location) later
     /\ chosen ∈ location :: after
     /\ scan_location zip_ref zip_ref bboxes
        = match label_lines (readlines (data chosen)) bboxes with
          | inl e => inl e
          | inr bboxes' => inr (true, bboxes')
          end)
  /\ (Forall (fun other => filename other <> filename location) after ->
      scan_location zip_ref zip_ref bboxes
      = match label_lines (readlines (data location)) bboxes with
        | inl e => inl e
        | inr bboxes' => inr (true, bboxes')
        end).
Proof.
  intros Hsplit Hbefore Hloc.
  assert (Hscan : forall earlier chosen later,
            zip_ref = earlier ++ chosen :: later ->
            filename chosen = filename location ->
            Forall (fun other => filename other <> filename location) later ->
            scan_location zip_ref zip_ref bboxes
            = match label_lines (readlines (data chosen)) bboxes with
              | inl e => inl e
              | inr bboxes' => inr (true, bboxes')
              end).
  { intros earlier chosen later Hlast Hname Hlater.
    rewrite Hsplit at 2.
    rewrite (scan_location_first _ _ _ _ _ Hbefore Hloc).
    rewrite Hlast, <- Hname, zip_open_last; [done|]. by rewrite Hname. }
  split.
  - destruct (last_named zip_ref (filename location))
      as (earlier & chosen & later & Hlast & Hname & Hlater).
    { exists location. split; [|done]. rewrite Hsplit.
      apply elem_of_app. right. by left. }
    exists earlier, chosen, later. split_and!; [done..| |by eapply Hscan].
    assert (Hin : chosen ∈ zip_ref).
    { rewrite Hlast. apply elem_of_app. right. by left. }
    rewrite Hsplit in Hin. apply elem_of_app in Hin as [Hin|Hin]; [|done].
    rewrite Forall_forall in Hbefore. specialize (Hbefore _ Hin).
    rewrite Hname in Hbefore. congruence.
  - intros Hafter. by apply (Hscan before location after).
Qed.

(** X10. Members are opened by name, and a name opens the member listed
    last under it. Members that share a name therefore all give the
    record of the last of them: same image bytes, same boxes. *)
Theorem X10_same_name_members_share_the_last_content
    zip_ref earlier zi later bboxes :
  zip_ref = earlier ++ zi :: later ->
  Forall (fun other => filename other <> filename zi) later ->
  zip_open zip_ref (filename zi) = inr (data zi)
  /\ forall file_info,
       filename file_info = filename zi ->
       record_of zip_ref bboxes file_info
       = match Image_open (data zi) with
         | inl e => inl e
         | inr img =>
             image_to_tfrecord img
               (default [] (bboxes !! base_name (filename zi)))
         end.
Proof.
  intros -> Hlater.
  assert (Hopen : zip_open (earlier ++ zi :: later) (filename zi) = inr (data zi)).
  { unfold zip_open, getinfo.
    rewrite rev_app_distr. cbn. rewrite <- app_assoc, find_app_last.
    assert (List.find (fun z => bool_decide (filename z = filename zi)) (rev later)
            = None) as ->.
    { apply find_absent, Forall_rev. eapply Forall_impl; [exact Hlater|].
      intros z Hz. by apply bool_decide_eq_false. }
    cbn. by rewrite bool_decide_eq_true_2. }
  split; [done|]. intros file_info Hname. unfold record_of.
  rewrite Hname, Hopen. cbn. by destruct (Image_open (data zi)).
Qed.

(** The ways a call of [process_images_to_tfrecord] ends: with an
    exception raised before the image loop (the writer that does not
    open included), the world as it was but for the log; with the label
    file not found; or, the writer open, in the loop, at the upload or
    after it. *)
Lemma process_cases source_bucket zip_key target_bucket output_prefix w :
  let key := output_prefix ++ u "/data.tfrecord" in
  let run := process_images_to_tfrecord source_bucket zip_key target_bucket
               output_prefix w in
  (exists e, run = (SysExit 2, logged (Error_processing_images e) w))
  \/ run = (Returned, logged Location_txt_not_found w)
  \/ exists buffer zip_ref bboxes records,
       get_object source_bucket zip_key = inr buffer
       /\ ZipFile buffer = inr zip_ref
       /\ scan_location zip_ref zip_ref ∅ = inr (true, bboxes)
       /\ accepted [] records
       /\ ((exists e before bad after,
              zip_ref = before ++ bad :: after
              /\ Forall2 (fun fi record => record_of zip_ref bboxes fi = inr record)
                   (images before) records
              /\ run = (SysExit 2,
                        logged (Error_processing_images e) (with_file records w)))
           \/ (Forall2 (fun fi record => record_of zip_ref bboxes fi = inr record)
                 (images zip_ref) records
               /\ ((exists e,
                      upload_file records target_bucket key = inl e
                      /\ run = (SysExit 2,
                                logged (Error_processing_images e)
                                  (with_upload (records, target_bucket, key)
                                     (with_file records w))))
                   \/ (upload_file records target_bucket key = inr tt
                       /\ run = (Returned,
                                 with_upload (records, target_bucket, key)
                                   (with_file records w)))))).
Proof.
  intros key run. subst run.
  destruct (get_object source_bucket zip_key) as [e|buffer] eqn:Hget.
  { left. exists e. unfold process_images_to_tfrecord, try_body, mbind, M_bind, pure.
    by rewrite Hget. }
  destruct (ZipFile buffer) as [e|zip_ref] eqn:Hzip.
  { left. exists e. unfold process_images_to_tfrecord, try_body, mbind, M_bind, pure.
    by rewrite Hget, Hzip. }
  destruct (scan_location zip_ref zip_ref ∅) as [e|[[] bboxes]] eqn:Hscan.
  - left. exists e. unfold process_images_to_tfrecord.
    by rewrite (try_body_scan_raises _ _ _ _ _ _ _ e Hget Hzip Hscan).
  - destruct (TFRecordWriter (tfrecord_file w)) as [e|[]] eqn:Hwriter.
    { left. exists e.
      exact (process_writer_fails _ _ _ _ _ _ _ _ e Hget Hzip Hscan Hwriter). }
    right; right. exists buffer, zip_ref, bboxes.
    rewrite (process_found _ _ _ _ _ _ _ _ Hget Hzip Hscan Hwriter).
    destruct (write_images zip_ref zip_ref bboxes (with_file [] w))
      as [[e|[]] w1] eqn:Hloop;
      destruct (write_images_spec _ _ _ (with_file [] w) [] _ _ eq_refl Hloop)
        as (records & -> & Hacc & Hrecords); exists records.
    + split_and!; [done..|]. left.
      destruct Hrecords as (before & bad & after & -> & _ & Hbefore & _).
      by exists e, before, bad, after.
    + split_and!; [done..|]. right. split; [done|].
      rewrite with_file_twice, upload_with_file. cbn [app]. fold key.
      destruct (upload_file records target_bucket key) as [e|[]];
        [left; by exists e | by right].
  - right; left. unfold process_images_to_tfrecord.
    by rewrite (try_body_not_found _ _ _ _ _ _ _ bboxes Hget Hzip Hscan).
Qed.

(** X14. A run calls [upload_file] at most once, with the target bucket
    and the key [output_prefix/data.tfrecord], and only once the label
    file is parsed and every image member of the archive has its record
    written: what it sends is the whole list of records, which is what
    the local file holds. The earlier calls are kept as they were. *)
Theorem X14_upload_is_single_and_complete
    source_bucket zip_key target_bucket output_prefix w :
  let w' := snd (process_images_to_tfrecord source_bucket zip_key target_bucket
                   output_prefix w) in
  upload_calls w' = upload_calls w
  \/ exists buffer zip_ref bboxes records,
       get_object source_bucket zip_key = inr buffer
       /\ ZipFile buffer = inr zip_ref
       /\ scan_location zip_ref zip_ref ∅ = inr (true, bboxes)
       /\ Forall2 (fun fi record => record_of zip_ref bboxes fi = inr record)
            (images zip_ref) records
       /\ tfrecord_file w' = Some records
       /\ upload_calls w'
          = upload_calls w
            ++ [(records, target_bucket, output_prefix ++ u "/data.tfrecord")].
Proof.
  intros w'. subst w'.
  destruct (process_cases source_bucket zip_key target_bucket output_prefix w)
    as [[e ->]|[->|(buffer & zip_ref & bboxes & records & Hget & Hzip & Hscan & _
                    & [(e & before & bad & after & _ & _ & ->)
                      |(Hrecords & [(e & _ & ->)|(_ & ->)])])]];
    [by left..| |]; right; by exists buffer, zip_ref, bboxes, records.
Qed.

(** X15. A run either leaves the local file as it found it, and then
    uploads nothing, or replaces it: after the run the file holds the
    records of the image members of a leading part of the listing, in
    order, and nothing of what it held before. *)
Theorem X15_local_file_untouched_or_rewritten
    source_bucket zip_key target_bucket output_prefix w :
  let w' := snd (process_images_to_tfrecord source_bucket zip_key target_bucket
                   output_prefix w) in
  (tfrecord_file w' = tfrecord_file w /\ upload_calls w' = upload_calls w)
  \/ exists buffer zip_ref bboxes before after records,
       get_object source_bucket zip_key = inr buffer
       /\ ZipFile buffer = inr zip_ref
       /\ scan_location zip_ref zip_ref ∅ = inr (true, bboxes)
       /\ zip_ref = before ++ after
       /\ Forall2 (fun fi record => record_of zip_ref bboxes fi = inr record)
            (images before) records
       /\ tfrecord_file w' = Some records.
Proof.
  intros w'. subst w'.
  destruct (process_cases source_bucket zip_key target_bucket output_prefix w)
    as [[e ->]|[->|(buffer & zip_ref & bboxes & records & Hget & Hzip & Hscan & _
                    & [(e & before & bad & after & Hsplit & Hbefore & ->)
                      |(Hrecords & [(e & _ & ->)|(_ & ->)])])]];
    [by left..| | |]; right.
  - exists buffer, zip_ref, bboxes, before, (bad :: after), records. by split_and!.
  - exists buffer, zip_ref, bboxes, zip_ref, [], records.
    rewrite app_nil_r. by split_and!.
  - exists buffer, zip_ref, bboxes, zip_ref, [], records.
    rewrite app_nil_r. by split_and!.
Qed.

(** X16. The script ends in one of four ways. It returns with nothing
    logged, having made one call to [upload_file] that succeeded; or it
    returns with the one line that [location.txt] was not found, having
    uploaded nothing; or it exits with status 2 after exactly one line of
    log, which is not that one; or the argument parser itself ends the
    process ([--help] does, with status 0), which the [except Exception]
    of line 17 does not catch: the status is the parser's and nothing is
    logged, written or uploaded. The lines logged before are kept. *)
Theorem X16_exit_status_and_log_line argv w :
  let c := fst (script argv w) in
  let w' := snd (script argv w) in
  (c = Returned /\ log w' = log w
   /\ exists call, upload_calls w' = upload_calls w ++ [call]
                   /\ upload_file call.1.1 call.1.2 call.2 = inr tt)
  \/ (c = Returned /\ log w' = log w ++ [Location_txt_not_found]
      /\ upload_calls w' = upload_calls w)
  \/ (c = SysExit 2
      /\ exists r, r <> Location_txt_not_found /\ log w' = log w ++ [r])
  \/ (exists code,
        getResolvedOptions argv
          [u "source_bucket"; u "zip_key"; u "target_bucket"; u "output_prefix"]
        = inl (SystemExit code)
        /\ c = SysExit code /\ w' = w).
Proof.
  intros c w'. subst c w'. unfold script.
  assert (Hfailed : forall r w0,
            r <> Location_txt_not_found -> log w0 = log w ->
            exists r0, r0 <> Location_txt_not_found
                       /\ log (logged r w0) = log w ++ [r0]).
  { intros r w0 Hr Hlog. exists r. split; [done|]. cbn. by rewrite Hlog. }
  destruct (getResolvedOptions _ _) as [[e|code]|args].
  { right; right; left. split; [done|]. by apply Hfailed. }
  { right; right; right. by exists code. }
  unfold main.
  destruct (args !! u "source_bucket") as [source_bucket|];
    [|right; right; left; split; [done|]; by apply Hfailed].
  destruct (args !! u "zip_key") as [zip_key|];
    [|right; right; left; split; [done|]; by apply Hfailed].
  destruct (args !! u "target_bucket") as [target_bucket|];
    [|right; right; left; split; [done|]; by apply Hfailed].
  destruct (args !! u "output_prefix") as [output_prefix|];
    [|right; right; left; split; [done|]; by apply Hfailed].
  destruct (process_cases source_bucket zip_key target_bucket output_prefix w)
    as [[e ->]|[->|(buffer & zip_ref & bboxes & records & _ & _ & _ & _
                    & [(e & before & bad & after & _ & _ & ->)
                      |(_ & [(e & _ & ->)|(Hup & ->)])])]].
  - right; right; left. split; [done|]. by apply Hfailed.
  - right; left. done.
  - right; right; left. split; [done|]. by apply Hfailed.
  - right; right; left. split; [done|]. by apply Hfailed.
  - left. split_and!; [done..|]. by eexists.
Qed.

(** X17. An archive with a label file that parses and no image member
    is no error: once the writer has opened, the local file is emptied and
    uploaded empty, and the run returns if the upload succeeds. *)
Theorem X17_archive_without_images_uploads_an_empty_file
    source_bucket zip_key target_bucket output_prefix w buffer zip_ref bboxes :
  get_object source_bucket zip_key = inr buffer ->
  ZipFile buffer = inr zip_ref ->
  scan_location zip_ref zip_ref ∅ = inr (true, bboxes) ->
  TFRecordWriter (tfrecord_file w) = inr tt ->
  Forall (fun fi => is_image (filename fi) = false) zip_ref ->
  let key := output_prefix ++ u "/data.tfrecord" in
  process_images_to_tfrecord source_bucket zip_key target_bucket output_prefix w
  = match upload_file [] target_bucket key with
    | inr _ => (Returned, with_upload ([], target_bucket, key) (with_file [] w))
    | inl e =>
        (SysExit 2,
         logged (Error_processing_images e)
           (with_upload ([], target_bucket, key) (with_file [] w)))
    end.
Proof.
  intros Hget Hzip Hscan Hwriter Hnone key.
  rewrite (process_found _ _ _ _ _ _ _ _ Hget Hzip Hscan Hwriter).
  assert (Himages : images zip_ref = []).
  { clear -Hnone. unfold images.
    induction Hnone as [|fi l Hfi _ IH]; cbn; [done|]. by rewrite Hfi. }
  rewrite (write_images_total _ _ _ (with_file [] w) [] [] eq_refl);
    [|rewrite Himages; constructor|done].
  cbn [app]. rewrite with_file_twice, upload_with_file. fold key.
  by destruct (upload_file [] target_bucket key) as [e|[]].
Qed.

End PipelineExtras.

(** * The further properties at work on the sample archives *)

Section MoreWitnesses.
Import Sample.


Lemma X3_witness :
  index_a !! base_name (u "imgs/a b.jpg") = None
  /\ @record_of (rt two_images) [member "imgs/a b.jpg" (b "AAA")] index_a
       (member "imgs/a b.jpg" (b "AAA"))
     = inr (@SerializeToString (rt two_images) (unlabelled (b "AAA"))).
Proof.
  assert (Hlines : @label_lines (rt two_images) [label_file_a] ∅ = inr index_a)
    by (vm_compute; reflexivity).
  assert (Hspace : base_name (u "imgs/a b.jpg") = []
                   \/ exists c, c ∈ base_name (u "imgs/a b.jpg")
                                /\ isspace c = true).
  { right. exists 32. split; [|reflexivity].
    apply list_elem_of_In. vm_compute. right; left. reflexivity. }
  destruct (X3_index_keys_are_tokens (RT := rt two_images) [label_file_a] index_a
              Hlines) as (_ & Hnone & Hrecord).
  split; [exact (Hnone _ Hspace)|].
  apply (Hrecord [member "imgs/a b.jpg" (b "AAA")]
           (member "imgs/a b.jpg" (b "AAA")) (b "AAA") (b "AAA") (b "AAA")
           Hspace); reflexivity.
Defined.

Lemma X4_witness :
  box_count index_aa
  = (box_count ∅
     + length (List.filter six_tokens
                 [label_file_a; b "no boxes here" ++ newline; label_line_a']))%nat.
Proof.
  apply (X4_one_box_per_six_token_line (RT := rt two_images)).
  vm_compute. reflexivity.
Defined.

Lemma X5_witness :
  exists box1 box2 before between after,
    index_aa !! u "a.jpg" = Some (before ++ box1 :: between ++ box2 :: after)
    /\ @py_int (rt two_images) (u "3") = inr (label box1)
    /\ @py_float (rt two_images) (u "10") = inr (xmin box1)
    /\ @py_float (rt two_images) (u "20") = inr (ymin box1)
    /\ @py_int (rt two_images) (u "7") = inr (label box2)
    /\ @py_float (rt two_images) (u "0.5") = inr (xmin box2)
    /\ @py_float (rt two_images) (u "1.25") = inr (ymin box2).
Proof.
  assert (Hlines : @label_lines (rt two_images)
                     ([] ++ label_file_a
                         :: [b "no boxes here" ++ newline] ++ label_line_a' :: [])
                     ∅ = inr index_aa)
    by (vm_compute; reflexivity).
  exact (X5_boxes_keep_line_order (RT := rt two_images)
           [] label_file_a [b "no boxes here" ++ newline] label_line_a' []
           ∅ index_aa (u "a.jpg") (u "3") (u "10") (u "20") (u "5") (u "8")
           (u "7") (u "0.5") (u "1.25") (u "2") (u "2") eq_refl eq_refl Hlines).
Defined.

Lemma X8_witness :
  exists jpeg (example : Example),
    @Image_save_jpeg (rt two_images) (b "AAA") = inr jpeg
    /\ record_a = @SerializeToString (rt two_images) example
    /\ example !! u "image" = Some (BytesList [jpeg])
    /\ dom example
       = {[ u "image"; u "xmins"; u "xmaxs"; u "ymins"; u "ymaxs"; u "labels" ]}.
Proof.
  exact (X8_record_carries_six_features (RT := rt two_images)
           (b "AAA") [box_a] record_a eq_refl).
Defined.

Lemma X9_witness :
  @scan_location (rt two_images) two_label_files two_label_files ∅
  = inr (true, index_a)
  /\ exists chosen,
       chosen ∈ [member "location.txt" label_file_car;
                 member "a.jpg" (b "AAA"); member "location.txt" label_file_a]
       /\ filename chosen = u "location.txt"
       /\ @scan_location (rt two_images) same_name_label_files
            same_name_label_files ∅
          = match @label_lines (rt two_images) (readlines (data chosen)) ∅ with
            | inl e => inl e
            | inr bboxes' => inr (true, bboxes')
            end.
Proof.
  split.
  - rewrite (proj2 (X9_only_the_first_label_file_is_read (RT := rt two_images)
                      two_label_files [member "a.jpg" (b "AAA")]
                      (member "x/location.txt" label_file_a)
                      [member "location.txt" label_file_car] ∅
                      eq_refl ltac:(repeat constructor) eq_refl)).
    + reflexivity.
    + repeat constructor. discriminate.
  - destruct (proj1 (X9_only_the_first_label_file_is_read (RT := rt two_images)
                       same_name_label_files []
                       (member "location.txt" label_file_car)
                       [member "a.jpg" (b "AAA");
                        member "location.txt" label_file_a] ∅
                       eq_refl ltac:(constructor) eq_refl))
      as (earlier & chosen & later & _ & Hname & _ & Hin & Hscan).
    exists chosen. split_and!; [exact Hin | exact Hname | exact Hscan].
Defined.

Lemma X10_witness :
  zip_open twice_a (u "a.jpg") = inr (b "second")
  /\ @record_of (rt two_images) twice_a index_a (member "a.jpg" (b "first"))
     = inr (b "second" ++ [x03%byte]).
Proof.
  destruct (X10_same_name_members_share_the_last_content (RT := rt two_images)
              twice_a
              [member "a.jpg" (b "first"); member "location.txt" label_file_a]
              (member "a.jpg" (b "second")) [] index_a eq_refl (List.Forall_nil _))
    as [Hopen Hrecord].
  split; [exact Hopen | exact (Hrecord (member "a.jpg" (b "first")) eq_refl)].
Defined.

Lemma X12_witness :
  base_name (u "train/imgs" ++ 47 :: u "a.jpg") = u "a.jpg"
  /\ base_name (u "a.jpg") = u "a.jpg".
Proof.
  apply X12_directory_is_ignored_in_lookup.
  intros H. apply list_elem_of_In in H. vm_compute in H. intuition discriminate.
Defined.

Lemma X13_witness : is_image (u "labels/location.txt") = false.
Proof. apply X13_label_file_is_not_an_image. reflexivity. Defined.

Lemma X17_witness :
  @process_images_to_tfrecord (rt labels_only)
    (u "raw") (u "data.zip") (u "out") (u "tf") used
  = (Returned,
     with_upload ([], u "out", u "tf" ++ u "/data.tfrecord") (with_file [] used)).
Proof.
  assert (Hscan : @scan_location (rt labels_only)
                    [member "location.txt" label_file_a]
                    [member "location.txt" label_file_a] ∅ = inr (true, index_a))
    by (vm_compute; reflexivity).
  exact (X17_archive_without_images_uploads_an_empty_file (RT := rt labels_only)
           (u "raw") (u "data.zip") (u "out") (u "tf") used labels_only
           [member "location.txt" label_file_a] index_a eq_refl eq_refl Hscan
           eq_refl ltac:(repeat constructor)).
Defined.

End MoreWitnesses.
